(** * chinese-new-year: the countdown arithmetic and the image export

    A shallow embedding of [src/App.tsx] (and of its variant that adds
    [isMobile]): the holiday table, [getNextCNY], [daysBetween], the
    [daysLeft] memo, [isMobile], and the two export handlers
    [copyToClipboard] and [downloadImage].

    Conventions of the embedding.
    - A JavaScript [Date] is its time value: milliseconds since the epoch,
      an integer of [Z].  The validity window of a time value (8.64e15 ms
      either side of the epoch) and the Invalid Date are not modelled.
    - The host's time zone is a parameter, ECMAScript's [LocalTZA(t, isUTC)].
    - The built-in [Date] operations follow ECMA-262 (section "Date
      Objects"): [Day], [DayFromYear], [YearFromTime], [MonthFromTime],
      [DateFromTime], [MakeDay], [MakeDate], [LocalTime], [UTC], and the
      constructor's rule that a year from 0 to 99 means 1900 + year.
    - The clock read by [new Date()] is an explicit argument.
    - The quotient handed to [Math.round] is an exact rational of [Q]
      (the operands are integers far below 2^53 in any realistic run).
    - The browser calls made by the export handlers are answered by an
      oracle; a handler yields the list of effects it performed and whether
      an exception left it. *)

From Stdlib Require Import ZArith QArith Qround Lia List Bool String Ascii.
From Stdlib Require Import DecimalString DecimalZ DecimalPos.
Import ListNotations.
Local Open Scope Z_scope.

(** ** ECMAScript day and year arithmetic *)

Definition msPerDay : Z := 86400000.
Definition msPerHour : Z := 3600000.

Definition Day (t : Z) : Z := t / msPerDay.
Definition TimeWithinDay (t : Z) : Z := t mod msPerDay.

Definition DaysInYear (y : Z) : Z :=
  if negb (y mod 4 =? 0) then 365
  else if negb (y mod 100 =? 0) then 366
  else if negb (y mod 400 =? 0) then 365
  else 366.

Definition DayFromYear (y : Z) : Z :=
  365 * (y - 1970) + (y - 1969) / 4 - (y - 1901) / 100 + (y - 1601) / 400.

Definition TimeFromYear (y : Z) : Z := msPerDay * DayFromYear y.

(** ECMA-262 defines [YearFromTime t] as the largest [y] with
    [TimeFromYear y <= t].  It is computed here from an estimate that is off
    by at most one year; [YearFromTime_largest] below shows that the result is
    the year of the definition. *)
Definition YearFromDay (n : Z) : Z :=
  let y := 1970 + (400 * n) / 146097 in
  if DayFromYear (y + 1) <=? n then y + 1
  else if DayFromYear y <=? n then y
  else y - 1.

Definition YearFromTime (t : Z) : Z := YearFromDay (Day t).

Definition InLeapYear (t : Z) : Z :=
  if DaysInYear (YearFromTime t) =? 365 then 0 else 1.

Definition DayWithinYear (t : Z) : Z := Day t - DayFromYear (YearFromTime t).

(** The month table on a day within the year [dwy], [leap] being 0 or 1. *)
Definition monthOfDay (dwy leap : Z) : Z :=
  if dwy <? 31 then 0
  else if dwy <? 59 + leap then 1
  else if dwy <? 90 + leap then 2
  else if dwy <? 120 + leap then 3
  else if dwy <? 151 + leap then 4
  else if dwy <? 181 + leap then 5
  else if dwy <? 212 + leap then 6
  else if dwy <? 243 + leap then 7
  else if dwy <? 273 + leap then 8
  else if dwy <? 304 + leap then 9
  else if dwy <? 334 + leap then 10
  else 11.

(** Days of the year before the first of month [mn] (0 to 11). *)
Definition daysBeforeMonth (mn leap : Z) : Z :=
  if mn =? 0 then 0
  else if mn =? 1 then 31
  else if mn =? 2 then 59 + leap
  else if mn =? 3 then 90 + leap
  else if mn =? 4 then 120 + leap
  else if mn =? 5 then 151 + leap
  else if mn =? 6 then 181 + leap
  else if mn =? 7 then 212 + leap
  else if mn =? 8 then 243 + leap
  else if mn =? 9 then 273 + leap
  else if mn =? 10 then 304 + leap
  else 334 + leap.

Definition MonthFromTime (t : Z) : Z :=
  monthOfDay (DayWithinYear t) (InLeapYear t).

Definition DateFromTime (t : Z) : Z :=
  DayWithinYear t - daysBeforeMonth (MonthFromTime t) (InLeapYear t) + 1.

(** [MakeDay]: the day number of the first of month [mn] of year [ym], plus
    [date - 1]; months outside 0..11 carry into the year. *)
Definition MakeDay (year month date : Z) : Z :=
  let ym := year + month / 12 in
  let mn := month mod 12 in
  let leap := if DaysInYear ym =? 365 then 0 else 1 in
  DayFromYear ym + daysBeforeMonth mn leap + date - 1.

Definition MakeDate (day time : Z) : Z := day * msPerDay + time.

(** ** The [Date] object under a time zone *)

(** A time zone is ECMAScript's [LocalTZA]: the offset in milliseconds of
    local time from UTC, asked either at a UTC instant ([isUTC = true]) or at
    a local time ([isUTC = false]). *)
Definition TimeZone : Type := Z -> bool -> Z.

Definition Date : Type := Z.

Definition LocalTime (tz : TimeZone) (t : Z) : Z := t + tz t true.
Definition UTC (tz : TimeZone) (t : Z) : Z := t - tz t false.

Definition getTime (d : Date) : Z := d.
Definition getFullYear (tz : TimeZone) (d : Date) : Z := YearFromTime (LocalTime tz d).
Definition getMonth (tz : TimeZone) (d : Date) : Z := MonthFromTime (LocalTime tz d).
Definition getDate (tz : TimeZone) (d : Date) : Z := DateFromTime (LocalTime tz d).

(** The constructor reads a year from 0 to 99 as a year of the 1900s. *)
Definition MakeFullYear (y : Z) : Z :=
  if (0 <=? y) && (y <=? 99) then 1900 + y else y.

(** [new Date(y, m, d)]: local midnight of the given calendar day. *)
Definition newDate (tz : TimeZone) (y m d : Z) : Date :=
  UTC tz (MakeDate (MakeDay (MakeFullYear y) m d) 0).

(** [Math.round]: the nearest integer, a tie going to the greater one. *)
Definition Math_round (x : Q) : Z := Qfloor (x + (1 # 2))%Q.

(** ** Time zones used in the examples *)

Definition utcZone : TimeZone := fun _ _ => 0.

(** A zone on offset [std] that moves to [dst] between the UTC instants
    [start] and [stop].  A local time that is skipped or repeated by a
    transition takes the offset in force before the transition. *)
Definition dstZone (std dst start stop : Z) : TimeZone :=
  fun t isUTC =>
    if isUTC then
      if (start <=? t) && (t <? stop) then dst else std
    else
      if t <? start + dst then std
      else if t <? stop + dst then dst
      else std.

(** Central European time in 2025: UTC+1, and UTC+2 from 01:00 UTC on
    30 March to 01:00 UTC on 26 October. *)
Definition centralEurope2025 : TimeZone :=
  dstZone msPerHour (2 * msPerHour)
    (MakeDate (MakeDay 2025 2 30) msPerHour)
    (MakeDate (MakeDay 2025 9 26) msPerHour).

(** Any two offsets of the zone differ by less than [bound]. *)
Definition offsets_within (bound : Z) (tz : TimeZone) : Prop :=
  forall t1 f1 t2 f2, Z.abs (tz t1 f1 - tz t2 f2) < bound.

(** No two offsets of the zone differ by half a day modulo a whole day. *)
Definition no_half_day_offsets (tz : TimeZone) : Prop :=
  forall t1 f1 t2 f2, (tz t1 f1 - tz t2 f2) mod msPerDay <> msPerDay / 2.

(** Taking a local time to UTC and back does not move it to an earlier local
    time: it returns the same local time, or a later one when the local time
    was skipped by a transition. *)
Definition resolves_forward (tz : TimeZone) : Prop :=
  forall t, tz t false <= tz (UTC tz t) true.

(** ** Calendar dates as the table writes them *)

(** (year, month 1..12, day of the month). *)
Definition Civil : Type := (Z * Z * Z)%type.

Definition civil_leb (a b : Civil) : bool :=
  let '(y1, m1, d1) := a in
  let '(y2, m2, d2) := b in
  (y1 <? y2) || ((y1 =? y2) && ((m1 <? m2) || ((m1 =? m2) && (d1 <=? d2)))).

Definition civil_ltb (a b : Civil) : bool := negb (civil_leb b a).

(** The local calendar date of an instant, months counted from 1. *)
Definition localCivil (tz : TimeZone) (d : Date) : Civil :=
  (getFullYear tz d, getMonth tz d + 1, getDate tz d).

(** The local day number of an instant (days since 1970-01-01). *)
Definition localDay (tz : TimeZone) (d : Date) : Z := Day (LocalTime tz d).

(** ** src/App.tsx: the holiday table and the date functions *)

Definition CNY_DATES : list Civil :=
  [ (2025, 1, 29);
    (2026, 2, 17);
    (2027, 2, 6);
    (2028, 1, 26);
    (2029, 2, 13);
    (2030, 2, 3);
    (2031, 1, 23);
    (2032, 2, 11);
    (2033, 1, 31);
    (2034, 2, 19);
    (2035, 2, 8);
    (2036, 1, 28) ].

(** The [for ... of] loop of [getNextCNY]: the first entry whose [Date] is
    [>=] today's, if any.  [>=] on two [Date]s compares their time values. *)
Fixpoint scanTable (tz : TimeZone) (today : Date) (table : list Civil) : option Date :=
  match table with
  | [] => None
  | (y, m, d) :: rest =>
      let cny := newDate tz y (m - 1) d in
      if getTime cny >=? getTime today then Some cny
      else scanTable tz today rest
  end.

(** [today] as both [getNextCNY] and the [daysLeft] memo compute it. *)
Definition todayOf (tz : TimeZone) (now : Date) : Date :=
  newDate tz (getFullYear tz now) (getMonth tz now) (getDate tz now).

Definition getNextCNY (tz : TimeZone) (now : Date) : Date :=
  let today := todayOf tz now in
  match scanTable tz today CNY_DATES with
  | Some cny => cny
  | None =>
      let '(y, m, d) := nth (List.length CNY_DATES - 1) CNY_DATES (0, 0, 0) in
      newDate tz (y + 1) (m - 1) d
  end.

Definition daysBetween (tz : TimeZone) (a b : Date) : Z :=
  let aDay := newDate tz (getFullYear tz a) (getMonth tz a) (getDate tz a) in
  let bDay := newDate tz (getFullYear tz b) (getMonth tz b) (getDate tz b) in
  Math_round (inject_Z (getTime bDay - getTime aDay) / inject_Z msPerDay)%Q.

(** The [daysLeft] memo reads the clock itself ([now1]) and once more inside
    [getNextCNY] ([now2]). *)
Definition daysLeft (tz : TimeZone) (now1 now2 : Date) : Z :=
  daysBetween tz (todayOf tz now1) (getNextCNY tz now2).

(** [daysBetween] in the words of its description: both instants are taken
    to the local midnight of their calendar day, and the difference, in days,
    is rounded. *)
Definition localMidnight (tz : TimeZone) (d : Date) : Z :=
  UTC tz (localDay tz d * msPerDay).

Definition daysBetween_described (tz : TimeZone) (a b : Date) : Z :=
  Math_round (inject_Z (localMidnight tz b - localMidnight tz a) / inject_Z 86400000)%Q.

(** ** The variant with [isMobile]: a case-insensitive pattern *)

(** The pattern of [isMobile] is an alternation of literals under the flag
    [i].  Strings are sequences of bytes; the flag compares two characters
    after folding the ASCII letters to upper case, and no other character
    folds onto an ASCII one. *)
Record RegExp : Type := mkRegExp {
  alternatives : list string;
  ignoreCase : bool
}.

Definition canonicalize (ic : bool) (c : ascii) : ascii :=
  let n := nat_of_ascii c in
  if ic && (97 <=? n)%nat && (n <=? 122)%nat then ascii_of_nat (n - 32) else c.

(** The literal [p] matches at the start of [s]. *)
Fixpoint matchLiteral (ic : bool) (p s : string) : bool :=
  match p, s with
  | EmptyString, _ => true
  | String _ _, EmptyString => false
  | String a p', String b s' =>
      Ascii.eqb (canonicalize ic a) (canonicalize ic b) && matchLiteral ic p' s'
  end.

(** [re.test(s)]: some alternative matches at some position of [s]. *)
Fixpoint test (re : RegExp) (s : string) : bool :=
  existsb (fun p => matchLiteral (ignoreCase re) p s) (alternatives re)
  || match s with
     | EmptyString => false
     | String _ s' => test re s'
     end.

Definition mobilePattern : RegExp :=
  mkRegExp
    [ "Android"; "iPhone"; "iPad"; "iPod"; "webOS"; "BlackBerry"; "IEMobile";
      "Opera Mini" ]%string
    true.

(** [isMobile], with [navigator.userAgent] as its argument. *)
Definition isMobile (userAgent : string) : bool := test mobilePattern userAgent.

(** Folding a whole string, and an occurrence of [p] in [s] up to case. *)
Fixpoint foldCase (s : string) : string :=
  match s with
  | EmptyString => EmptyString
  | String c s' => String (canonicalize true c) (foldCase s')
  end.

Definition occursFolded (p s : string) : Prop :=
  exists pre mid post : string,
    s = (pre ++ mid ++ post)%string /\ foldCase mid = foldCase p.

Definition occurs (p s : string) : Prop :=
  exists pre post : string, s = (pre ++ p ++ post)%string.

(** ** The export handlers *)

(** What a browser call answers: a value, or an exception (a rejected
    promise, once awaited). *)
Inductive Outcome (A : Type) : Type :=
| Returns (a : A)
| Throws.
Arguments Returns {A} a.
Arguments Throws {A}.

Inductive Node : Type := node (id : nat).
Inductive Canvas : Type := canvasOf (n : Node).
Inductive Blob : Type := pngOf (c : Canvas).

(** The browser as the handlers see it. *)
Record Browser : Type := mkBrowser {
  cardRef_current : option Node;
  html2canvas : Node -> Outcome Canvas;
  toBlob : Canvas -> Outcome (option Blob);
  clipboard_write : Blob -> Outcome unit;
  toDataURL : Canvas -> Outcome string;
  appendChild : Outcome unit;
  click : Outcome unit;
  removeChild : Outcome unit
}.

(** The effects a handler leaves behind. *)
Inductive Event : Type :=
| SetToast (msg : option string)
| SetTimeout (ms : Z)
| ClipboardWritten (b : Blob)
| DownloadStarted (href download : string).

(** A computation: the effects performed, in order, and how it ended. *)
Definition Eff (A : Type) : Type := (list Event * Outcome A)%type.

Definition ret {A : Type} (a : A) : Eff A := ([], Returns a).

Definition bind {A B : Type} (m : Eff A) (k : A -> Eff B) : Eff B :=
  match m with
  | (tr, Returns a) => let '(tr', r) := k a in (tr ++ tr', r)
  | (tr, Throws) => (tr, Throws)
  end.

Definition emit (e : Event) : Eff unit := ([e], Returns tt).

Definition call {A : Type} (o : Outcome A) : Eff A := ([], o).

(** [try { body } catch { handler }]. *)
Definition try_catch {A : Type} (body handler : Eff A) : Eff A :=
  match body with
  | (tr, Throws) => let '(tr', r) := handler in (tr ++ tr', r)
  | done => done
  end.

Declare Scope eff_scope.
Delimit Scope eff_scope with eff.
Notation "x <- m ;; k" := (bind m (fun x => k))
  (at level 61, m at next level, right associativity) : eff_scope.
Notation "m ;; k" := (bind m (fun _ => k))
  (at level 61, right associativity) : eff_scope.
Local Open Scope eff_scope.

Definition trace {A : Type} (m : Eff A) : list Event := fst m.
Definition escapes {A : Type} (m : Eff A) : bool :=
  match snd m with
  | Throws => true
  | Returns _ => false
  end.

Definition copiedMsg : string := "已复制到剪贴板 ✅".
Definition copyFailedMsg : string := "复制失败，请重试".
Definition savedMsg : string := "已保存图片 ✅".
Definition saveFailedMsg : string := "保存失败，请重试".

Definition showToast (msg : string) : Eff unit :=
  emit (SetToast (Some msg)) ;;
  emit (SetTimeout 2000).

Definition captureCard (env : Browser) : Eff (option Canvas) :=
  match cardRef_current env with
  | None => ret None
  | Some n => c <- call (html2canvas env n) ;; ret (Some c)
  end.

(** The callback given to [canvas.toBlob]; it runs once the blob is ready. *)
Definition blobCallback (env : Browser) (blob : option Blob) : Eff unit :=
  match blob with
  | None => ret tt
  | Some b =>
      try_catch
        (call (clipboard_write env b) ;;
         emit (ClipboardWritten b) ;;
         showToast copiedMsg)
        (showToast copyFailedMsg)
  end.

(** [copyToClipboard]: the body under [try], which hands the callback to
    [toBlob], and then the callback itself, outside that [try]. *)
Definition copyToClipboard (env : Browser) : Eff unit :=
  pending <-
    try_catch
      (canvas <- captureCard env ;;
       match canvas with
       | None => ret None
       | Some c => blob <- call (toBlob env c) ;; ret (Some blob)
       end)
      (showToast copyFailedMsg ;; ret None) ;;
  match pending with
  | None => ret tt
  | Some blob => blobCallback env blob
  end.

Definition string_of_Z (z : Z) : string :=
  DecimalString.NilZero.string_of_int (Z.to_int z).

Definition downloadName (daysLeft : Z) : string :=
  ("过年倒计时-" ++ string_of_Z daysLeft ++ "天.png")%string.

Definition downloadImage (env : Browser) (daysLeft : Z) : Eff unit :=
  try_catch
    (canvas <- captureCard env ;;
     match canvas with
     | None => ret tt
     | Some c =>
         url <- call (toDataURL env c) ;;
         call (appendChild env) ;;
         call (click env) ;;
         emit (DownloadStarted url (downloadName daysLeft)) ;;
         call (removeChild env) ;;
         showToast savedMsg
     end)
    (showToast saveFailedMsg).

(** [handleClick] of the variant that dispatches on the client. *)
Definition handleClick (userAgent : string) (env : Browser) (daysLeft : Z) : Eff unit :=
  if isMobile userAgent then downloadImage env daysLeft
  else copyToClipboard env.

(** The failures an export can meet, as properties of the browser. *)
Definition capture_null (env : Browser) : Prop :=
  cardRef_current env = None.

Definition capture_rejected (env : Browser) : Prop :=
  exists n, cardRef_current env = Some n /\ html2canvas env n = Throws.

Definition captured (env : Browser) (c : Canvas) : Prop :=
  exists n, cardRef_current env = Some n /\ html2canvas env n = Returns c.

Definition blob_throws (env : Browser) : Prop :=
  exists c, captured env c /\ toBlob env c = Throws.

Definition blob_null (env : Browser) : Prop :=
  exists c, captured env c /\ toBlob env c = Returns None.

Definition write_denied (env : Browser) : Prop :=
  exists c b, captured env c /\ toBlob env c = Returns (Some b)
              /\ clipboard_write env b = Throws.

Definition url_throws (env : Browser) : Prop :=
  exists c, captured env c /\ toDataURL env c = Throws.

Definition dom_throws (env : Browser) : Prop :=
  exists c url, captured env c /\ toDataURL env c = Returns url
                /\ (appendChild env = Throws \/ click env = Throws
                    \/ removeChild env = Throws).

Definition shows (msg : string) (tr : list Event) : Prop :=
  In (SetToast (Some msg)) tr /\ In (SetTimeout 2000) tr.

Definition writes_clipboard (tr : list Event) : Prop :=
  exists b, In (ClipboardWritten b) tr.

Definition starts_download (tr : list Event) : Prop :=
  exists href name, In (DownloadStarted href name) tr.

(** Browsers used in the examples. *)
Definition theCard : Node := node 0.

Definition unmounted : Browser :=
  mkBrowser None
    (fun n => Returns (canvasOf n))
    (fun c => Returns (Some (pngOf c)))
    (fun _ => Returns tt)
    (fun _ => Returns "data:image/png;base64,AAAA"%string)
    (Returns tt) (Returns tt) (Returns tt).

Definition working : Browser :=
  mkBrowser (Some theCard)
    (fun n => Returns (canvasOf n))
    (fun c => Returns (Some (pngOf c)))
    (fun _ => Returns tt)
    (fun _ => Returns "data:image/png;base64,AAAA"%string)
    (Returns tt) (Returns tt) (Returns tt).

Definition emptyBlob : Browser :=
  mkBrowser (Some theCard)
    (fun n => Returns (canvasOf n))
    (fun _ => Returns None)
    (fun _ => Returns tt)
    (fun _ => Returns "data:,"%string)
    (Returns tt) (Returns tt) (Returns tt).

Definition clipboardDenied : Browser :=
  mkBrowser (Some theCard)
    (fun n => Returns (canvasOf n))
    (fun c => Returns (Some (pngOf c)))
    (fun _ => Throws)
    (fun _ => Throws)
    (Returns tt) (Returns tt) (Returns tt).

(** ** Notions used to state the results *)

(** The day number that [new Date(y, m, d)] builds from the fields of the
    local time [t]: the constructor's reading of the year is part of it. *)
Definition rebuiltDay (t : Z) : Z :=
  MakeDay (MakeFullYear (YearFromTime t)) (MonthFromTime t) (DateFromTime t).

(** The year is not one that the constructor takes for a year of the 1900s. *)
Definition fullYear (y : Z) : Prop := ~ (0 <= y <= 99).

Definition dayOfCivil (c : Civil) : Z :=
  let '(y, m, d) := c in MakeDay y (m - 1) d.

Definition civilOfDay (n : Z) : Civil :=
  let t := MakeDate n 0 in
  (YearFromTime t, MonthFromTime t + 1, DateFromTime t).

Definition civil_eqb (a b : Civil) : bool :=
  let '(y1, m1, d1) := a in
  let '(y2, m2, d2) := b in
  (y1 =? y2) && (m1 =? m2) && (d1 =? d2).

(** A table entry names a day of the calendar, in the year 2000 or later. *)
Definition entry_ok (c : Civil) : bool :=
  civil_eqb (civilOfDay (dayOfCivil c)) c && (2000 <=? fst (fst c)).

Definition newDateOf (tz : TimeZone) (c : Civil) : Date :=
  let '(y, m, d) := c in newDate tz y (m - 1) d.

(** Instants used in the examples, as time values. *)
Definition utcInstant (y m d h : Z) : Date :=
  MakeDate (MakeDay y (m - 1) d) (h * msPerHour).

(** ** The rest of the view *)

(** The effect that mirrors the count into [document.title]. *)
Definition documentTitle (daysLeft : Z) : string :=
  ("距过年还剩 " ++ string_of_Z daysLeft ++ " 天")%string.

(** The hint under the card, in the variant that dispatches on the client. *)
Definition hintText (userAgent : string) : string :=
  if isMobile userAgent then "点击保存图片"%string
  else "点击任意位置复制图片"%string.

(** The [toast] state of the component and the timers that [showToast] has
    set and that have not fired yet.  Every timer runs the same callback,
    [setToast(null)], so their number is all that matters. *)
Record ToastState : Type := mkToastState {
  toast : option string;
  hideTimers : nat
}.

Definition initialToast : ToastState := mkToastState None 0.

(** What an effect of a handler does to that state. *)
Definition applyEvent (s : ToastState) (e : Event) : ToastState :=
  match e with
  | SetToast msg => mkToastState msg (hideTimers s)
  | SetTimeout _ => mkToastState (toast s) (S (hideTimers s))
  | ClipboardWritten _ => s
  | DownloadStarted _ _ => s
  end.

Definition applyTrace (s : ToastState) (tr : list Event) : ToastState :=
  fold_left applyEvent tr s.

(** What happens in the page: a click that runs a handler against some
    browser, or a pending timer firing. *)
Inductive UiAction : Type :=
| RunCopy (env : Browser)
| RunDownload (env : Browser) (daysLeft : Z)
| RunClick (userAgent : string) (env : Browser) (daysLeft : Z)
| TimerFires.

(** The effects of the handler that an action runs. *)
Definition actionTrace (a : UiAction) : list Event :=
  match a with
  | RunCopy env => trace (copyToClipboard env)
  | RunDownload env n => trace (downloadImage env n)
  | RunClick ua env n => trace (handleClick ua env n)
  | TimerFires => []
  end.

(** One action; a timer can fire only if one is pending. *)
Definition uiStep (s : ToastState) (a : UiAction) : option ToastState :=
  match a with
  | RunCopy env => Some (applyTrace s (trace (copyToClipboard env)))
  | RunDownload env n => Some (applyTrace s (trace (downloadImage env n)))
  | RunClick ua env n => Some (applyTrace s (trace (handleClick ua env n)))
  | TimerFires =>
      match hideTimers s with
      | O => None
      | S k => Some (mkToastState None k)
      end
  end.

Fixpoint uiRun (s : ToastState) (actions : list UiAction) : option ToastState :=
  match actions with
  | [] => Some s
  | a :: rest =>
      match uiStep s a with
      | Some s' => uiRun s' rest
      | None => None
      end
  end.

(** The number of toasts a trace sets. *)
Definition toastCount (tr : list Event) : nat :=
  List.length (filter (fun e => match e with
                                | SetToast (Some _) => true
                                | _ => false
                                end) tr).

(** ** The countdown on day numbers *)

(** The day number of the holiday that [getNextCNY] picks for the local day
    [n]: the first table entry on or after day [n], or else the fallback. *)
Definition nextHolidayDay (n : Z) : Z :=
  match find (fun e => n <=? dayOfCivil e) CNY_DATES with
  | Some c => dayOfCivil c
  | None => dayOfCivil (2037, 1, 28)
  end.

(* ================================================================== *)
(** * Results *)

Ltac euclid := Z.to_euclidean_division_equations; lia.

(** ** Years *)

Lemma DaysInYear_cases y : DaysInYear y = 365 \/ DaysInYear y = 366.
Proof.
  unfold DaysInYear.
  destruct (y mod 4 =? 0), (y mod 100 =? 0), (y mod 400 =? 0); cbn [negb]; auto.
Qed.

Lemma step4 y :
  (y + 1 - 1969) / 4 = (y - 1969) / 4 + (if y mod 4 =? 0 then 1 else 0).
Proof. destruct (Z.eqb_spec (y mod 4) 0); euclid. Qed.

Lemma step100 y :
  (y + 1 - 1901) / 100 = (y - 1901) / 100 + (if y mod 100 =? 0 then 1 else 0).
Proof. destruct (Z.eqb_spec (y mod 100) 0); euclid. Qed.

Lemma step400 y :
  (y + 1 - 1601) / 400 = (y - 1601) / 400 + (if y mod 400 =? 0 then 1 else 0).
Proof. destruct (Z.eqb_spec (y mod 400) 0); euclid. Qed.

(** A year is as long as [DaysInYear] says. *)
Lemma DayFromYear_succ y : DayFromYear (y + 1) = DayFromYear y + DaysInYear y.
Proof.
  unfold DayFromYear, DaysInYear.
  rewrite step4, step100, step400.
  assert (H1 : y mod 100 = 0 -> y mod 4 = 0) by euclid.
  assert (H2 : y mod 400 = 0 -> y mod 100 = 0) by euclid.
  destruct (Z.eqb_spec (y mod 4) 0), (Z.eqb_spec (y mod 100) 0),
    (Z.eqb_spec (y mod 400) 0); cbn [negb]; lia.
Qed.

Lemma DayFromYear_lt y1 y2 :
  y1 < y2 -> DayFromYear y1 + DaysInYear y1 <= DayFromYear y2.
Proof.
  intros H. replace y2 with (y1 + 1 + (y2 - y1 - 1)) by lia.
  assert (Hk : 0 <= y2 - y1 - 1) by lia.
  generalize dependent (y2 - y1 - 1). intros k Hk.
  pattern k. apply natlike_ind; [ | | exact Hk].
  - rewrite Z.add_0_r, DayFromYear_succ. lia.
  - intros x Hx IH. replace (y1 + 1 + Z.succ x) with (y1 + 1 + x + 1) by lia.
    rewrite DayFromYear_succ. pose proof (DaysInYear_cases (y1 + 1 + x)). lia.
Qed.

Lemma DayFromYear_le y1 y2 : y1 <= y2 -> DayFromYear y1 <= DayFromYear y2.
Proof.
  intros H. destruct (Z.eq_dec y1 y2) as [->|Hne]; [lia|].
  pose proof (DayFromYear_lt y1 y2). pose proof (DaysInYear_cases y1). lia.
Qed.

(** The computed year is the one whose days contain [n]. *)
Lemma YearFromDay_spec n :
  DayFromYear (YearFromDay n) <= n < DayFromYear (YearFromDay n + 1).
Proof.
  unfold YearFromDay.
  set (y := 1970 + 400 * n / 146097).
  assert (Hlo : DayFromYear (y - 1) <= n) by (unfold DayFromYear, y; euclid).
  assert (Hhi : n < DayFromYear (y + 2)) by (unfold DayFromYear, y; euclid).
  destruct (Z.leb_spec (DayFromYear (y + 1)) n).
  - replace (y + 1 + 1) with (y + 2) by lia. lia.
  - destruct (Z.leb_spec (DayFromYear y) n).
    + lia.
    + replace (y - 1 + 1) with y by lia. lia.
Qed.

Lemma YearFromDay_unique n y :
  DayFromYear y <= n < DayFromYear (y + 1) -> YearFromDay n = y.
Proof.
  intros [Hlo Hhi]. pose proof (YearFromDay_spec n) as [Slo Shi].
  destruct (Z.lt_trichotomy (YearFromDay n) y) as [Hlt|[Heq|Hgt]]; [ |exact Heq| ].
  - pose proof (DayFromYear_le (YearFromDay n + 1) y). lia.
  - pose proof (DayFromYear_le (y + 1) (YearFromDay n)). lia.
Qed.

Lemma YearFromDay_mono n1 n2 : n1 <= n2 -> YearFromDay n1 <= YearFromDay n2.
Proof.
  intros H. pose proof (YearFromDay_spec n1) as [L1 H1].
  pose proof (YearFromDay_spec n2) as [L2 H2].
  destruct (Z.le_gt_cases (YearFromDay n1) (YearFromDay n2)) as [|Hgt]; [assumption|].
  pose proof (DayFromYear_le (YearFromDay n2 + 1) (YearFromDay n1)). lia.
Qed.

(** [YearFromTime] is the year of ECMA-262: the largest [y] whose first
    instant is not after [t]. *)
Lemma YearFromTime_largest t :
  TimeFromYear (YearFromTime t) <= t
  /\ forall y, TimeFromYear y <= t -> y <= YearFromTime t.
Proof.
  unfold TimeFromYear, YearFromTime.
  pose proof (YearFromDay_spec (Day t)) as [Slo Shi].
  assert (Hd : msPerDay * Day t <= t < msPerDay * (Day t + 1))
    by (unfold Day, msPerDay; euclid).
  split.
  - unfold msPerDay in *. lia.
  - intros y Hy.
    destruct (Z.le_gt_cases y (YearFromDay (Day t))) as [|Hgt]; [assumption|].
    pose proof (DayFromYear_le (YearFromDay (Day t) + 1) y).
    unfold msPerDay in *. lia.
Qed.

(** ** Months and days of the month *)

Ltac split_tables :=
  repeat (cbv iota;
          match goal with
          | |- context [Z.ltb ?a ?b] => destruct (Z.ltb_spec a b)
          | |- context [Z.eqb ?a ?b] => destruct (Z.eqb_spec a b)
          | |- context [Z.leb ?a ?b] => destruct (Z.leb_spec a b)
          end);
  cbv iota.

Lemma InLeapYear_cases t : InLeapYear t = 0 \/ InLeapYear t = 1.
Proof. unfold InLeapYear. destruct (_ =? 365); auto. Qed.

Lemma DayWithinYear_range t : 0 <= DayWithinYear t < 365 + InLeapYear t.
Proof.
  unfold DayWithinYear, InLeapYear, YearFromTime.
  pose proof (YearFromDay_spec (Day t)) as [Slo Shi].
  rewrite DayFromYear_succ in Shi.
  pose proof (DaysInYear_cases (YearFromDay (Day t))).
  destruct (Z.eqb_spec (DaysInYear (YearFromDay (Day t))) 365); lia.
Qed.

Lemma monthOfDay_range dwy leap : 0 <= monthOfDay dwy leap <= 11.
Proof. unfold monthOfDay. split_tables; lia. Qed.

Lemma monthOfDay_start dwy leap :
  0 <= leap <= 1 -> 0 <= dwy < 365 + leap ->
  daysBeforeMonth (monthOfDay dwy leap) leap <= dwy
  < daysBeforeMonth (monthOfDay dwy leap) leap + 31.
Proof.
  intros Hl Hd. unfold monthOfDay.
  split_tables; unfold daysBeforeMonth; cbn [Z.eqb Pos.eqb]; lia.
Qed.

Lemma MonthFromTime_range t : 0 <= MonthFromTime t <= 11.
Proof. apply monthOfDay_range. Qed.

Lemma DateFromTime_range t : 1 <= DateFromTime t <= 31.
Proof.
  unfold DateFromTime, MonthFromTime.
  pose proof (InLeapYear_cases t). pose proof (DayWithinYear_range t).
  pose proof (monthOfDay_start (DayWithinYear t) (InLeapYear t)). lia.
Qed.

(** The fields of a time give back its day. *)
Lemma MakeDay_fields t :
  MakeDay (YearFromTime t) (MonthFromTime t) (DateFromTime t) = Day t.
Proof.
  unfold MakeDay. pose proof (MonthFromTime_range t) as Hm.
  replace (MonthFromTime t / 12) with 0 by euclid.
  replace (MonthFromTime t mod 12) with (MonthFromTime t) by euclid.
  rewrite Z.add_0_r. fold (InLeapYear t).
  unfold DateFromTime, DayWithinYear. lia.
Qed.

Lemma Day_MakeDate n ms : 0 <= ms < msPerDay -> Day (MakeDate n ms) = n.
Proof. unfold Day, MakeDate, msPerDay. intros H. euclid. Qed.

(** The fields of a time are those of its day. *)
Lemma civilOfDay_Day t :
  civilOfDay (Day t) = (YearFromTime t, MonthFromTime t + 1, DateFromTime t).
Proof.
  unfold civilOfDay, DateFromTime, MonthFromTime, DayWithinYear, InLeapYear,
    YearFromTime.
  rewrite Day_MakeDate by (unfold msPerDay; lia). reflexivity.
Qed.

Lemma localCivil_localDay tz d : localCivil tz d = civilOfDay (localDay tz d).
Proof. unfold localDay. rewrite civilOfDay_Day. reflexivity. Qed.

Lemma localDay_unfold tz d : localDay tz d = Day (LocalTime tz d).
Proof. reflexivity. Qed.

(** Within a year, days are ordered as their (month, date) pairs. *)
Lemma month_date_order leap a b :
  (monthOfDay a leap <? monthOfDay b leap)
  || ((monthOfDay a leap =? monthOfDay b leap)
      && (a - daysBeforeMonth (monthOfDay a leap) leap + 1
          <=? b - daysBeforeMonth (monthOfDay b leap) leap + 1))
  = (a <=? b).
Proof.
  unfold monthOfDay.
  destruct (Z.leb_spec a b) as [Hab|Hab];
    split_tables; cbn; try reflexivity; try lia;
    unfold daysBeforeMonth; cbn [Z.eqb Pos.eqb];
    match goal with
    | |- (?x <=? ?y) = true => apply Z.leb_le; lia
    | |- (?x <=? ?y) = false => apply Z.leb_gt; lia
    end.
Qed.

(** ** The order of calendar dates *)

Lemma civilOfDay_unfold n :
  let y := YearFromDay n in
  let leap := if DaysInYear y =? 365 then 0 else 1 in
  let dwy := n - DayFromYear y in
  civilOfDay n
  = (y, monthOfDay dwy leap + 1,
     dwy - daysBeforeMonth (monthOfDay dwy leap) leap + 1).
Proof.
  cbv zeta.
  unfold civilOfDay, DateFromTime, MonthFromTime, DayWithinYear, InLeapYear,
    YearFromTime.
  rewrite Day_MakeDate by (unfold msPerDay; lia). reflexivity.
Qed.

(** Days are ordered as their calendar dates. *)
Lemma civil_order n1 n2 :
  civil_leb (civilOfDay n1) (civilOfDay n2) = (n1 <=? n2).
Proof.
  rewrite (civilOfDay_unfold n1), (civilOfDay_unfold n2). cbv zeta.
  unfold civil_leb.
  pose proof (YearFromDay_spec n1) as [L1 H1].
  pose proof (YearFromDay_spec n2) as [L2 H2].
  destruct (Z.lt_trichotomy (YearFromDay n1) (YearFromDay n2)) as [Hlt|[Heq|Hgt]].
  - pose proof (DayFromYear_le (YearFromDay n1 + 1) (YearFromDay n2)).
    rewrite (proj2 (Z.ltb_lt _ _) Hlt). cbn [orb].
    symmetry. apply Z.leb_le. lia.
  - rewrite Heq, Z.ltb_irrefl, Z.eqb_refl. cbn [orb andb].
    transitivity (n1 - DayFromYear (YearFromDay n2)
                  <=? n2 - DayFromYear (YearFromDay n2));
      [ | destruct (Z.leb_spec n1 n2);
          [apply Z.leb_le | apply Z.leb_gt]; lia ].
    rewrite <- (month_date_order
                  (if DaysInYear (YearFromDay n2) =? 365 then 0 else 1)
                  (n1 - DayFromYear (YearFromDay n2))
                  (n2 - DayFromYear (YearFromDay n2))).
    f_equal; [ | f_equal ].
    + destruct (Z.ltb_spec (monthOfDay (n1 - DayFromYear (YearFromDay n2))
                              (if DaysInYear (YearFromDay n2) =? 365 then 0 else 1) + 1)
                  (monthOfDay (n2 - DayFromYear (YearFromDay n2))
                     (if DaysInYear (YearFromDay n2) =? 365 then 0 else 1) + 1));
        symmetry; [apply Z.ltb_lt | apply Z.ltb_ge]; lia.
    + destruct (Z.eqb_spec (monthOfDay (n1 - DayFromYear (YearFromDay n2))
                              (if DaysInYear (YearFromDay n2) =? 365 then 0 else 1) + 1)
                  (monthOfDay (n2 - DayFromYear (YearFromDay n2))
                     (if DaysInYear (YearFromDay n2) =? 365 then 0 else 1) + 1));
        symmetry; [apply Z.eqb_eq | apply Z.eqb_neq]; lia.
  - pose proof (DayFromYear_le (YearFromDay n2 + 1) (YearFromDay n1)).
    rewrite (proj2 (Z.ltb_ge _ _)) by lia.
    rewrite (proj2 (Z.eqb_neq _ _)) by lia. cbn [orb andb].
    symmetry. apply Z.leb_gt. lia.
Qed.

Lemma civil_leb_refl c : civil_leb c c = true.
Proof.
  destruct c as [[y m] d]. unfold civil_leb.
  rewrite !Z.eqb_refl, Z.leb_refl, !orb_true_r. reflexivity.
Qed.

(** [civil_leb] as a proposition, for arithmetic. *)
Lemma civil_leb_spec y1 m1 d1 y2 m2 d2 :
  civil_leb (y1, m1, d1) (y2, m2, d2) = true
  <-> y1 < y2 \/ (y1 = y2 /\ (m1 < m2 \/ (m1 = m2 /\ d1 <= d2))).
Proof.
  unfold civil_leb.
  rewrite orb_true_iff, andb_true_iff, orb_true_iff, andb_true_iff.
  rewrite !Z.ltb_lt, !Z.eqb_eq, Z.leb_le. tauto.
Qed.

Lemma civil_eqb_eq a b : civil_eqb a b = true -> a = b.
Proof.
  destruct a as [[y1 m1] d1], b as [[y2 m2] d2]. unfold civil_eqb.
  rewrite !andb_true_iff, !Z.eqb_eq. intros [[-> ->] ->]. reflexivity.
Qed.

(** ** What the constructor rebuilds from the fields of a time *)

Lemma MakeFullYear_full y : fullYear y -> MakeFullYear y = y.
Proof.
  unfold fullYear, MakeFullYear. intros H.
  destruct (Z.leb_spec 0 y), (Z.leb_spec y 99); cbn [andb]; lia.
Qed.

Lemma daysBeforeMonth_range m leap :
  0 <= leap <= 1 -> 0 <= daysBeforeMonth m leap <= 335.
Proof. intros H. unfold daysBeforeMonth. split_tables; lia. Qed.

Lemma rebuiltDay_full t : fullYear (YearFromTime t) -> rebuiltDay t = Day t.
Proof.
  intros H. unfold rebuiltDay. rewrite MakeFullYear_full by assumption.
  apply MakeDay_fields.
Qed.

Lemma DayFromYear_100 : DayFromYear 100 = -683003.
Proof. reflexivity. Qed.

Lemma DayFromYear_1900 : DayFromYear 1900 = -25567.
Proof. reflexivity. Qed.

Lemma DayFromYear_1999 : DayFromYear 1999 = 10592.
Proof. reflexivity. Qed.

(** A year from 0 to 99 is rebuilt in the 1900s. *)
Lemma rebuiltDay_1900s t :
  0 <= YearFromTime t <= 99 ->
  Day t < DayFromYear 100 /\ DayFromYear 1900 <= rebuiltDay t < 10958.
Proof.
  intros Hy. split.
  - unfold YearFromTime in Hy.
    pose proof (YearFromDay_spec (Day t)) as [_ Shi].
    pose proof (DayFromYear_le (YearFromDay (Day t) + 1) 100). lia.
  - unfold rebuiltDay, MakeFullYear.
    replace ((0 <=? YearFromTime t) && (YearFromTime t <=? 99)) with true
      by (symmetry; apply andb_true_iff; split; apply Z.leb_le; lia).
    unfold MakeDay. pose proof (MonthFromTime_range t) as Hm.
    replace (MonthFromTime t / 12) with 0 by euclid.
    replace (MonthFromTime t mod 12) with (MonthFromTime t) by euclid.
    rewrite Z.add_0_r.
    pose proof (DateFromTime_range t).
    pose proof (DayFromYear_le 1900 (1900 + YearFromTime t)).
    pose proof (DayFromYear_le (1900 + YearFromTime t) 1999).
    rewrite DayFromYear_1999 in *.
    assert (Hl : 0 <= (if DaysInYear (1900 + YearFromTime t) =? 365 then 0 else 1) <= 1)
      by (destruct (_ =? 365); lia).
    pose proof (daysBeforeMonth_range (MonthFromTime t) _ Hl). lia.
Qed.

Lemma fullYear_dec y : {fullYear y} + {0 <= y <= 99}.
Proof.
  unfold fullYear.
  destruct (Z_le_dec 0 y), (Z_le_dec y 99); (right; lia) || (left; lia).
Qed.

(** Rebuilding never goes back in time. *)
Lemma rebuiltDay_ge t : Day t <= rebuiltDay t.
Proof.
  destruct (fullYear_dec (YearFromTime t)) as [Hf|Hq].
  - rewrite rebuiltDay_full by assumption. lia.
  - pose proof (rebuiltDay_1900s t Hq).
    rewrite DayFromYear_100, DayFromYear_1900 in *. lia.
Qed.

Lemma rebuiltDay_Day t1 t2 : Day t1 = Day t2 -> rebuiltDay t1 = rebuiltDay t2.
Proof.
  intros H. pose proof (civilOfDay_Day t1) as E1.
  pose proof (civilOfDay_Day t2) as E2. rewrite H, E2 in E1.
  injection E1 as Hy Hm Hd. unfold rebuiltDay.
  rewrite Hy, Hd. replace (MonthFromTime t1) with (MonthFromTime t2) by lia.
  reflexivity.
Qed.

Lemma late_day_fullYear n : DayFromYear 100 <= n -> 100 <= YearFromDay n.
Proof.
  intros H. pose proof (YearFromDay_spec n) as [_ Shi].
  destruct (Z.le_gt_cases 100 (YearFromDay n)) as [|Hlt]; [assumption|].
  pose proof (DayFromYear_le (YearFromDay n + 1) 100). lia.
Qed.

(** A rebuilt day is rebuilt as itself. *)
Lemma rebuiltDay_idem t t' : Day t' = rebuiltDay t -> rebuiltDay t' = Day t'.
Proof.
  intros H. apply rebuiltDay_full. unfold YearFromTime.
  destruct (fullYear_dec (YearFromTime t)) as [Hf|Hq].
  - rewrite rebuiltDay_full in H by assumption. rewrite H. exact Hf.
  - pose proof (rebuiltDay_1900s t Hq) as [_ [Hlo _]].
    pose proof (late_day_fullYear (Day t')).
    rewrite DayFromYear_100, DayFromYear_1900 in *.
    unfold fullYear. lia.
Qed.

(** ** Rounding a quotient of integers *)

Lemma Math_round_quotient x :
  Math_round (inject_Z x / inject_Z msPerDay)
  = (2 * x + msPerDay) / (2 * msPerDay).
Proof.
  unfold Math_round. rewrite Zdiv_Qdiv. apply Qfloor_comp.
  rewrite inject_Z_plus, !inject_Z_mult. unfold msPerDay. field.
Qed.

Lemma round_near k e :
  Z.abs e < msPerDay / 2 ->
  (2 * (k * msPerDay + e) + msPerDay) / (2 * msPerDay) = k.
Proof. unfold msPerDay. intros H. euclid. Qed.

(** ** The table *)

Lemma DayFromYear_2000 : DayFromYear 2000 = 10957.
Proof. reflexivity. Qed.

Lemma entry_ok_facts c :
  entry_ok c = true ->
  civilOfDay (dayOfCivil c) = c
  /\ 2000 <= fst (fst c)
  /\ YearFromDay (dayOfCivil c) = fst (fst c)
  /\ 10957 <= dayOfCivil c.
Proof.
  unfold entry_ok. rewrite andb_true_iff, Z.leb_le. intros [He Hy].
  apply civil_eqb_eq in He.
  assert (Hyear : YearFromDay (dayOfCivil c) = fst (fst c)).
  { rewrite <- He at 2. rewrite civilOfDay_unfold. reflexivity. }
  repeat split; try assumption.
  pose proof (YearFromDay_spec (dayOfCivil c)) as [Slo _].
  rewrite Hyear in Slo.
  pose proof (DayFromYear_le 2000 (fst (fst c)) Hy).
  rewrite DayFromYear_2000 in *. lia.
Qed.

(** The test of the loop, on a table entry, compares calendar dates. *)
Lemma entry_test t c :
  entry_ok c = true ->
  (dayOfCivil c >=? rebuiltDay t) = civil_leb (civilOfDay (Day t)) c.
Proof.
  intros H. apply entry_ok_facts in H as (Hc & _ & _ & Hlate).
  rewrite <- Hc at 2. rewrite civil_order, Z.geb_leb.
  destruct (fullYear_dec (YearFromTime t)) as [Hf|Hq].
  - rewrite rebuiltDay_full by assumption. reflexivity.
  - pose proof (rebuiltDay_1900s t Hq) as [Hd [_ Hr]].
    rewrite DayFromYear_100 in Hd.
    rewrite (proj2 (Z.leb_le _ _)) by lia.
    rewrite (proj2 (Z.leb_le _ _)) by lia. reflexivity.
Qed.

Lemma CNY_DATES_ok : forallb entry_ok CNY_DATES = true.
Proof. vm_compute. reflexivity. Qed.

Lemma civil_ltb_leb a b : civil_ltb a b = true -> civil_leb a b = true.
Proof.
  destruct a as [[y1 m1] d1], b as [[y2 m2] d2]. unfold civil_ltb.
  rewrite negb_true_iff, <- not_true_iff_false, !civil_leb_spec. lia.
Qed.

Lemma civil_leb_trans a b c :
  civil_leb a b = true -> civil_leb b c = true -> civil_leb a c = true.
Proof.
  destruct a as [[y1 m1] d1], b as [[y2 m2] d2], c as [[y3 m3] d3].
  rewrite !civil_leb_spec. lia.
Qed.

(** The table is in strictly ascending order: searching it for one of its
    own entries finds that entry. *)
Lemma CNY_DATES_find_self c :
  In c CNY_DATES -> find (fun e => civil_leb c e) CNY_DATES = Some c.
Proof.
  unfold CNY_DATES. cbn [In].
  intros H. repeat (destruct H as [<-|H]; [reflexivity|]). destruct H.
Qed.

Lemma CNY_DATES_last c :
  In c CNY_DATES -> civil_leb c (2036, 1, 28) = true.
Proof.
  unfold CNY_DATES. cbn [In].
  intros H. repeat (destruct H as [<-|H]; [reflexivity|]). destruct H.
Qed.

Lemma offsets_within_weaken b1 b2 tz :
  b1 <= b2 -> offsets_within b1 tz -> offsets_within b2 tz.
Proof. intros Hb H t1 f1 t2 f2. specialize (H t1 f1 t2 f2). lia. Qed.

(** ** The date functions in a time zone *)

Section Zone.

Variable tz : TimeZone.

Lemma newDate_unfold y m d :
  newDate tz y m d = UTC tz (MakeDay (MakeFullYear y) m d * msPerDay).
Proof. unfold newDate, MakeDate. rewrite Z.add_0_r. reflexivity. Qed.

Lemma todayOf_unfold now :
  todayOf tz now = UTC tz (rebuiltDay (LocalTime tz now) * msPerDay).
Proof.
  unfold todayOf. rewrite newDate_unfold.
  unfold rebuiltDay, getFullYear, getMonth, getDate. reflexivity.
Qed.

Lemma newDateOf_midnight c :
  entry_ok c = true -> newDateOf tz c = UTC tz (dayOfCivil c * msPerDay).
Proof.
  intros H. apply entry_ok_facts in H as (_ & Hy & _).
  destruct c as [[y m] d]. cbn [fst] in Hy. unfold newDateOf, dayOfCivil.
  rewrite newDate_unfold, MakeFullYear_full by (unfold fullYear; lia).
  reflexivity.
Qed.

Lemma newDate_fields_full d :
  fullYear (getFullYear tz d) ->
  newDate tz (getFullYear tz d) (getMonth tz d) (getDate tz d)
  = localMidnight tz d.
Proof.
  intros Hf. rewrite newDate_unfold, MakeFullYear_full by exact Hf.
  unfold localMidnight, localDay, getFullYear, getMonth, getDate.
  rewrite MakeDay_fields. reflexivity.
Qed.

Lemma daysBetween_unfold a b :
  daysBetween tz a b
  = (2 * (UTC tz (rebuiltDay (LocalTime tz b) * msPerDay)
          - UTC tz (rebuiltDay (LocalTime tz a) * msPerDay)) + msPerDay)
    / (2 * msPerDay).
Proof.
  unfold daysBetween. cbv zeta. rewrite Math_round_quotient.
  rewrite !newDate_unfold.
  unfold rebuiltDay, getFullYear, getMonth, getDate, getTime. reflexivity.
Qed.

Lemma daysBetween_same_day a b :
  localCivil tz a = localCivil tz b -> daysBetween tz a b = 0.
Proof.
  unfold localCivil. intros H. injection H as Hy Hm Hd.
  assert (Hm' : getMonth tz a = getMonth tz b) by lia.
  unfold daysBetween. cbv zeta. rewrite Hy, Hm', Hd, Z.sub_diag.
  reflexivity.
Qed.

Lemma find_none_after now :
  civil_ltb (2036, 1, 28) (localCivil tz now) = true ->
  find (fun c => civil_leb (localCivil tz now) c) CNY_DATES = None.
Proof.
  intros Hlt. destruct (find _ CNY_DATES) as [c|] eqn:Hfind; [|reflexivity].
  apply find_some in Hfind as [Hin Hle].
  pose proof (civil_leb_trans _ _ _ Hle (CNY_DATES_last c Hin)) as Habs.
  unfold civil_ltb in Hlt. rewrite Habs in Hlt. discriminate.
Qed.

Lemma civil_leb_days d c :
  entry_ok c = true ->
  civil_leb (localCivil tz d) c = true -> localDay tz d <= dayOfCivil c.
Proof.
  intros Hok Hle. pose proof (entry_ok_facts c Hok) as (Hcivil & _).
  rewrite localCivil_localDay, <- Hcivil, civil_order in Hle.
  apply Z.leb_le. exact Hle.
Qed.

(** *** Offsets less than a day apart *)

Section WithinADay.

Hypothesis Hday : offsets_within msPerDay tz.

(** Local midnights are ordered as their days. *)
Lemma UTC_midnight_geb n1 n2 :
  (UTC tz (n1 * msPerDay) >=? UTC tz (n2 * msPerDay)) = (n1 >=? n2).
Proof.
  unfold UTC.
  pose proof (Hday (n1 * msPerDay) false (n2 * msPerDay) false) as H.
  unfold msPerDay in *. rewrite !Z.geb_leb.
  destruct (Z.leb_spec n2 n1); [apply Z.leb_le | apply Z.leb_gt];
    destruct (Z.eq_dec n1 n2) as [->|]; lia.
Qed.

Lemma scanTable_find t table :
  forallb entry_ok table = true ->
  scanTable tz (UTC tz (rebuiltDay t * msPerDay)) table
  = option_map (newDateOf tz)
      (find (fun c => civil_leb (civilOfDay (Day t)) c) table).
Proof.
  induction table as [|c rest IH]; intros Hok; [reflexivity|].
  cbn [forallb] in Hok. apply andb_true_iff in Hok as [Hc Hrest].
  cbn [find]. rewrite <- (entry_test t c Hc).
  rewrite <- UTC_midnight_geb, <- (newDateOf_midnight c Hc).
  destruct c as [[y m] d]. cbn [scanTable newDateOf]. unfold getTime.
  destruct (newDate tz y (m - 1) d >=? UTC tz (rebuiltDay t * msPerDay)).
  - cbn [option_map newDateOf]. reflexivity.
  - apply IH. exact Hrest.
Qed.

(** [getNextCNY] as a search by calendar date. *)
Lemma getNextCNY_find now :
  getNextCNY tz now
  = match find (fun c => civil_leb (localCivil tz now) c) CNY_DATES with
    | Some c => newDateOf tz c
    | None => newDate tz 2037 0 28
    end.
Proof.
  unfold getNextCNY. cbv zeta.
  rewrite todayOf_unfold, (scanTable_find _ _ CNY_DATES_ok).
  rewrite localCivil_localDay. unfold localDay.
  destruct (find _ CNY_DATES); reflexivity.
Qed.

(** What [getNextCNY] returns is the [Date] of a calendar day: a table
    entry on or after today, or the fallback. *)
Lemma getNextCNY_entry now :
  exists c,
    getNextCNY tz now = newDateOf tz c /\ entry_ok c = true
    /\ (civil_leb (localCivil tz now) c = true \/ c = (2037, 1, 28)).
Proof.
  rewrite getNextCNY_find.
  destruct (find _ CNY_DATES) as [c|] eqn:Hfind.
  - apply find_some in Hfind as [Hin Hle]. exists c. repeat split; auto.
    pose proof CNY_DATES_ok as Hall. rewrite forallb_forall in Hall. auto.
  - exists (2037, 1, 28). repeat split; auto.
Qed.

(** *** Local times resolved forward *)

Section ResolvesForward.

Hypothesis Hfwd : resolves_forward tz.

(** A local midnight falls on its own day. *)
Lemma localDay_midnight n : localDay tz (UTC tz (n * msPerDay)) = n.
Proof.
  unfold localDay, LocalTime.
  pose proof (Hfwd (n * msPerDay)) as Hr.
  pose proof (Hday (UTC tz (n * msPerDay)) true (n * msPerDay) false) as Hw.
  unfold UTC in *. unfold Day. unfold msPerDay in *. euclid.
Qed.

(** The local date of a table entry's [Date] is the entry. *)
Lemma localDay_newDateOf c :
  entry_ok c = true -> localDay tz (newDateOf tz c) = dayOfCivil c.
Proof.
  intros Hc. rewrite newDateOf_midnight by assumption.
  apply localDay_midnight.
Qed.

Lemma localCivil_newDateOf c :
  entry_ok c = true -> localCivil tz (newDateOf tz c) = c.
Proof.
  intros Hc. rewrite localCivil_localDay, localDay_newDateOf by assumption.
  apply entry_ok_facts. exact Hc.
Qed.

Lemma rebuiltDay_todayOf now :
  rebuiltDay (LocalTime tz (todayOf tz now)) = rebuiltDay (LocalTime tz now).
Proof.
  pose proof (localDay_midnight (rebuiltDay (LocalTime tz now))) as Hd.
  rewrite <- todayOf_unfold, localDay_unfold in Hd.
  rewrite (rebuiltDay_idem (LocalTime tz now) (LocalTime tz (todayOf tz now)) Hd).
  exact Hd.
Qed.

Lemma rebuiltDay_newDateOf c :
  entry_ok c = true ->
  rebuiltDay (LocalTime tz (newDateOf tz c)) = dayOfCivil c.
Proof.
  intros Hok.
  pose proof (localDay_newDateOf c Hok) as Hb.
  rewrite localDay_unfold in Hb.
  pose proof (entry_ok_facts c Hok) as (_ & Hyear & HY & _).
  rewrite rebuiltDay_full; [exact Hb|].
  unfold YearFromTime, fullYear. rewrite Hb. lia.
Qed.

End ResolvesForward.

End WithinADay.

(** *** Offsets less than half a day apart *)

Section WithinHalfADay.

Hypothesis Hhalf : offsets_within (msPerDay / 2) tz.

Lemma within_half_within_day : offsets_within msPerDay tz.
Proof.
  apply (offsets_within_weaken (msPerDay / 2)); [discriminate | exact Hhalf].
Qed.

(** The rounding of [daysBetween] is exact. *)
Lemma daysBetween_rebuilt a b :
  daysBetween tz a b
  = rebuiltDay (LocalTime tz b) - rebuiltDay (LocalTime tz a).
Proof.
  rewrite daysBetween_unfold. unfold UTC.
  set (B := rebuiltDay (LocalTime tz b)).
  set (A := rebuiltDay (LocalTime tz a)).
  pose proof (Hhalf (A * msPerDay) false (B * msPerDay) false) as H.
  rewrite <- (round_near (B - A)
                (tz (A * msPerDay) false - tz (B * msPerDay) false))
    by assumption.
  f_equal. lia.
Qed.

End WithinHalfADay.

End Zone.

(** ** The example zones *)

Lemma centralEurope2025_cases t f :
  centralEurope2025 t f = 3600000 \/ centralEurope2025 t f = 7200000.
Proof.
  unfold centralEurope2025, dstZone, msPerHour.
  destruct f; repeat match goal with
                     | |- context [if ?b then _ else _] => destruct b
                     end; auto.
Qed.

Lemma centralEurope2025_within : offsets_within (msPerDay / 2) centralEurope2025.
Proof.
  intros t1 f1 t2 f2.
  destruct (centralEurope2025_cases t1 f1) as [->| ->],
    (centralEurope2025_cases t2 f2) as [->| ->]; reflexivity.
Qed.

Lemma centralEurope2025_within_day : offsets_within msPerDay centralEurope2025.
Proof. apply within_half_within_day. exact centralEurope2025_within. Qed.

Lemma centralEurope2025_no_half : no_half_day_offsets centralEurope2025.
Proof.
  intros t1 f1 t2 f2.
  destruct (centralEurope2025_cases t1 f1) as [->| ->],
    (centralEurope2025_cases t2 f2) as [->| ->]; discriminate.
Qed.

Lemma dstZone_forward std dst start stop :
  std <= dst -> start <= stop -> resolves_forward (dstZone std dst start stop).
Proof.
  intros Hd Hs t. unfold UTC, dstZone.
  destruct (Z.ltb_spec t (start + dst)).
  - destruct ((start <=? t - std) && (t - std <? stop)); lia.
  - destruct (Z.ltb_spec t (stop + dst)).
    + replace ((start <=? t - dst) && (t - dst <? stop)) with true; [lia|].
      symmetry. apply andb_true_iff. split; [apply Z.leb_le | apply Z.ltb_lt]; lia.
    + destruct ((start <=? t - std) && (t - std <? stop)); lia.
Qed.

Lemma centralEurope2025_forward : resolves_forward centralEurope2025.
Proof. apply dstZone_forward; discriminate. Qed.

(** ** The scenarios of the specification, evaluated *)

Example scenario_2025_01_01 :
  localCivil utcZone (getNextCNY utcZone (utcInstant 2025 1 1 8)) = (2025, 1, 29)
  /\ daysLeft utcZone (utcInstant 2025 1 1 8) (utcInstant 2025 1 1 8) = 28.
Proof. vm_compute. split; reflexivity. Qed.

Example scenario_2025_01_29 :
  daysLeft utcZone (utcInstant 2025 1 29 8) (utcInstant 2025 1 29 8) = 0.
Proof. vm_compute. reflexivity. Qed.

Example scenario_2036_06_01 :
  localCivil utcZone (getNextCNY utcZone (utcInstant 2036 6 1 8)) = (2037, 1, 28)
  /\ daysLeft utcZone (utcInstant 2036 6 1 8) (utcInstant 2036 6 1 8) = 241.
Proof. vm_compute. split; reflexivity. Qed.

(** Across the change to summer time the difference of the two midnights is
    an hour short of 31 days, and the rounding gives 31. *)
Example scenario_across_summer_time :
  getTime (todayOf centralEurope2025 (utcInstant 2025 4 15 12))
  - getTime (todayOf centralEurope2025 (utcInstant 2025 3 15 12))
  = 31 * msPerDay - msPerHour
  /\ daysBetween centralEurope2025 (utcInstant 2025 3 15 12) (utcInstant 2025 4 15 12)
     = 31.
Proof. vm_compute. split; reflexivity. Qed.

(** ** The claims on the date functions *)

(** C1: [getNextCNY] returns the [Date] of the first table entry whose
    calendar date is on or after today's local calendar date, the time of
    day playing no part: a date before 2025-01-29 gives the first entry, and
    the date of a table entry gives that entry.  The time zone keeps its
    offsets less than a day apart. *)
Theorem getNextCNY_first_on_or_after tz now :
  offsets_within msPerDay tz ->
  (forall c,
      find (fun e => civil_leb (localCivil tz now) e) CNY_DATES = Some c ->
      getNextCNY tz now = newDateOf tz c)
  /\ (civil_ltb (localCivil tz now) (2025, 1, 29) = true ->
      getNextCNY tz now = newDate tz 2025 0 29)
  /\ (forall c,
         In c CNY_DATES -> localCivil tz now = c ->
         getNextCNY tz now = newDateOf tz c).
Proof.
  intros Hw. rewrite (getNextCNY_find tz Hw now). repeat split.
  - intros c ->. reflexivity.
  - intros Hlt. apply civil_ltb_leb in Hlt.
    unfold CNY_DATES. cbn [find]. rewrite Hlt. reflexivity.
  - intros c Hin ->. rewrite (CNY_DATES_find_self c Hin). reflexivity.
Qed.

Lemma getNextCNY_first_on_or_after_witness :
  offsets_within msPerDay centralEurope2025
  /\ civil_ltb (localCivil centralEurope2025 (utcInstant 2025 1 1 23)) (2025, 1, 29) = true
  /\ localCivil centralEurope2025 (utcInstant 2025 1 1 23) = (2025, 1, 2)
  /\ getNextCNY centralEurope2025 (utcInstant 2025 1 1 23)
     = newDate centralEurope2025 2025 0 29.
Proof.
  split; [exact centralEurope2025_within_day|].
  split; [vm_compute; reflexivity|].
  split; [vm_compute; reflexivity|].
  apply (proj1 (proj2 (getNextCNY_first_on_or_after centralEurope2025
                         (utcInstant 2025 1 1 23) centralEurope2025_within_day))).
  vm_compute. reflexivity.
Defined.

(** C2: for a local calendar date after 2036-01-28, the last entry,
    [getNextCNY] returns the fallback [new Date(2036 + 1, 1 - 1, 28)], whose
    local date is 2037-01-28; the function returns a [Date] on every input.
    The time zone keeps its offsets less than a day apart. *)
Theorem getNextCNY_fallback tz now :
  offsets_within msPerDay tz ->
  civil_ltb (2036, 1, 28) (localCivil tz now) = true ->
  getNextCNY tz now = newDate tz (2036 + 1) (1 - 1) 28
  /\ (resolves_forward tz ->
      localCivil tz (getNextCNY tz now) = (2037, 1, 28)).
Proof.
  intros Hw Hlt.
  assert (E : getNextCNY tz now = newDate tz 2037 0 28).
  { rewrite (getNextCNY_find tz Hw now), (find_none_after tz now Hlt).
    reflexivity. }
  split; [exact E|].
  intros Hr. rewrite E.
  apply (localCivil_newDateOf tz Hw Hr (2037, 1, 28)). vm_compute. reflexivity.
Qed.

Lemma getNextCNY_fallback_witness :
  offsets_within msPerDay centralEurope2025
  /\ civil_ltb (2036, 1, 28) (localCivil centralEurope2025 (utcInstant 2036 6 1 9)) = true
  /\ getNextCNY centralEurope2025 (utcInstant 2036 6 1 9)
     = newDate centralEurope2025 (2036 + 1) (1 - 1) 28.
Proof.
  split; [exact centralEurope2025_within_day|].
  split; [vm_compute; reflexivity|].
  apply (getNextCNY_fallback centralEurope2025 (utcInstant 2036 6 1 9)
           centralEurope2025_within_day).
  vm_compute. reflexivity.
Defined.

(** Years 0 to 99 lie outside what [daysBetween] is ever given: its first
    argument is [today], which the constructor has built, and its second a
    holiday of 2025 to 2037.  On such a year the constructor would rebuild
    the date in the 1900s: in UTC, 31 December of the year 99 is rebuilt as
    1999-12-31. *)
Lemma daysBetween_year_99_rebuilt :
  localCivil utcZone (-59011545600000) = (99, 12, 31)
  /\ localCivil utcZone (-59011459200000) = (100, 1, 1)
  /\ localDay utcZone (-59011459200000) - localDay utcZone (-59011545600000) = 1
  /\ daysBetween utcZone (-59011545600000) (-59011459200000) = -693959.
Proof. vm_compute. repeat split; discriminate. Qed.

(** The dates that [daysLeft] hands to [daysBetween] are in years written in
    full. *)
Lemma todayOf_day tz now :
  offsets_within msPerDay tz -> resolves_forward tz ->
  Day (LocalTime tz (todayOf tz now)) = rebuiltDay (LocalTime tz now).
Proof.
  intros Hw Hr.
  pose proof (localDay_midnight tz Hw Hr (rebuiltDay (LocalTime tz now))) as Hd.
  rewrite <- todayOf_unfold, localDay_unfold in Hd. exact Hd.
Qed.

Lemma rebuilt_year_full t t' :
  Day t' = rebuiltDay t -> fullYear (YearFromTime t').
Proof.
  intros H. unfold YearFromTime.
  destruct (fullYear_dec (YearFromTime t)) as [Hf|Hq].
  - rewrite rebuiltDay_full in H by assumption. rewrite H. exact Hf.
  - pose proof (rebuiltDay_1900s t Hq) as [_ [Hlo _]].
    pose proof (late_day_fullYear (Day t')).
    rewrite DayFromYear_100, DayFromYear_1900 in *.
    unfold fullYear. lia.
Qed.

Lemma todayOf_fullYear tz now :
  offsets_within msPerDay tz -> resolves_forward tz ->
  fullYear (getFullYear tz (todayOf tz now)).
Proof.
  intros Hw Hr. unfold getFullYear.
  apply (rebuilt_year_full (LocalTime tz now)). apply todayOf_day; assumption.
Qed.

Lemma getNextCNY_fullYear tz now :
  offsets_within msPerDay tz -> resolves_forward tz ->
  fullYear (getFullYear tz (getNextCNY tz now)).
Proof.
  intros Hw Hr. destruct (getNextCNY_entry tz Hw now) as (c & -> & Hok & _).
  pose proof (localDay_newDateOf tz Hw Hr c Hok) as Hb.
  rewrite localDay_unfold in Hb.
  pose proof (entry_ok_facts c Hok) as (_ & Hyear & HY & _).
  unfold getFullYear, YearFromTime, fullYear. rewrite Hb, HY. lia.
Qed.

(** C3: [daysBetween] is the rounded quotient of the difference of the two
    local midnights by 86,400,000, and equals the signed number of calendar
    days from [a] to [b], also across a change of daylight-saving time: the
    time zone keeps its offsets less than half a day apart, and the dates
    are in years written in full, as are the two dates that the one call of
    [daysBetween], in [daysLeft], passes to it.  From 2025-01-01 to
    2025-01-29 it gives 28, and 0 for two instants of one calendar day. *)
Theorem daysBetween_counts_calendar_days tz a b :
  offsets_within (msPerDay / 2) tz ->
  (fullYear (getFullYear tz a) -> fullYear (getFullYear tz b) ->
   daysBetween tz a b = daysBetween_described tz a b
   /\ daysBetween tz a b = localDay tz b - localDay tz a)
  /\ (localCivil tz a = (2025, 1, 1) -> localCivil tz b = (2025, 1, 29) ->
      daysBetween tz a b = 28)
  /\ (localCivil tz a = localCivil tz b -> daysBetween tz a b = 0)
  /\ (resolves_forward tz ->
      forall now1 now2,
        fullYear (getFullYear tz (todayOf tz now1))
        /\ fullYear (getFullYear tz (getNextCNY tz now2))
        /\ daysBetween tz (todayOf tz now1) (getNextCNY tz now2)
           = localDay tz (getNextCNY tz now2) - localDay tz (todayOf tz now1)).
Proof.
  intros Hw.
  assert (Hexact : forall x y,
             fullYear (getFullYear tz x) -> fullYear (getFullYear tz y) ->
             daysBetween tz x y = localDay tz y - localDay tz x).
  { intros x y Hx Hy. rewrite (daysBetween_rebuilt tz Hw x y).
    rewrite !rebuiltDay_full by assumption. reflexivity. }
  split; [|split; [|split]].
  - intros Ha Hb. split; [|apply Hexact; assumption].
    unfold daysBetween, daysBetween_described. cbv zeta.
    rewrite !newDate_fields_full by assumption. reflexivity.
  - intros Ha Hb. rewrite (daysBetween_rebuilt tz Hw a b).
    unfold localCivil, getFullYear, getMonth, getDate in Ha, Hb.
    injection Ha as Hya Hma Hda. injection Hb as Hyb Hmb Hdb.
    unfold rebuiltDay. rewrite Hya, Hda, Hyb, Hdb.
    replace (MonthFromTime (LocalTime tz a)) with 0 by lia.
    replace (MonthFromTime (LocalTime tz b)) with 0 by lia.
    reflexivity.
  - apply daysBetween_same_day.
  - intros Hr now1 now2.
    pose proof (within_half_within_day tz Hw) as Hd.
    pose proof (todayOf_fullYear tz now1 Hd Hr) as H1.
    pose proof (getNextCNY_fullYear tz now2 Hd Hr) as H2.
    split; [exact H1|]. split; [exact H2|]. apply Hexact; assumption.
Qed.

Lemma daysBetween_counts_calendar_days_witness :
  offsets_within (msPerDay / 2) centralEurope2025
  /\ fullYear (getFullYear centralEurope2025 (utcInstant 2025 3 1 20))
  /\ fullYear (getFullYear centralEurope2025 (utcInstant 2025 4 29 5))
  /\ daysBetween centralEurope2025 (utcInstant 2025 3 1 20) (utcInstant 2025 4 29 5)
     = localDay centralEurope2025 (utcInstant 2025 4 29 5)
       - localDay centralEurope2025 (utcInstant 2025 3 1 20).
Proof.
  assert (Ha : fullYear (getFullYear centralEurope2025 (utcInstant 2025 3 1 20)))
    by (vm_compute; intros [_ H]; apply H; reflexivity).
  assert (Hb : fullYear (getFullYear centralEurope2025 (utcInstant 2025 4 29 5)))
    by (vm_compute; intros [_ H]; apply H; reflexivity).
  split; [exact centralEurope2025_within|].
  split; [exact Ha|]. split; [exact Hb|].
  exact (proj2 (proj1 (daysBetween_counts_calendar_days centralEurope2025
                         (utcInstant 2025 3 1 20) (utcInstant 2025 4 29 5)
                         centralEurope2025_within) Ha Hb)).
Defined.

(** C4, where it fails as stated: with the clock on 2038-01-01 (UTC) the
    fallback 2037-01-28 lies in the past and the count is -338. *)
Lemma daysLeft_negative_counterexample :
  daysLeft utcZone (utcInstant 2038 1 1 0) (utcInstant 2038 1 1 0) = -338
  /\ ~ 0 <= daysLeft utcZone (utcInstant 2038 1 1 0) (utcInstant 2038 1 1 0).
Proof. vm_compute. split; [reflexivity | intros H; apply H; reflexivity]. Qed.

(** C4, amended: while the local calendar date is on or before 2037-01-28,
    the date of the fallback, [daysLeft] is not negative.  The zone keeps
    its offsets less than half a day apart and resolves local times forward;
    the clock does not fall back to an earlier local day between the two
    reads. *)
Theorem daysLeft_nonneg_until_fallback tz now1 now2 :
  offsets_within (msPerDay / 2) tz ->
  resolves_forward tz ->
  localDay tz now1 <= localDay tz now2 ->
  civil_leb (localCivil tz now1) (2037, 1, 28) = true ->
  0 <= daysLeft tz now1 now2.
Proof.
  intros Hh Hr Hclock Hbefore.
  pose proof (within_half_within_day tz Hh) as Hw.
  unfold daysLeft. rewrite (daysBetween_rebuilt tz Hh).
  rewrite (rebuiltDay_todayOf tz Hw Hr now1).
  destruct (getNextCNY_entry tz Hw now2) as (c & -> & Hok & Hc).
  rewrite (rebuiltDay_newDateOf tz Hw Hr c Hok).
  pose proof (entry_ok_facts c Hok) as (_ & _ & _ & Hlate).
  destruct (fullYear_dec (YearFromTime (LocalTime tz now1))) as [Hf|Hq].
  - rewrite rebuiltDay_full by exact Hf.
    assert (Hfirst : localDay tz now1 <= dayOfCivil c).
    { destruct Hc as [Hle| ->].
      - pose proof (civil_leb_days tz now2 c Hok Hle). lia.
      - apply (civil_leb_days tz now1 (2037, 1, 28) Hok Hbefore). }
    rewrite localDay_unfold in Hfirst. lia.
  - pose proof (rebuiltDay_1900s _ Hq). lia.
Qed.

Lemma daysLeft_nonneg_until_fallback_witness :
  offsets_within (msPerDay / 2) centralEurope2025
  /\ resolves_forward centralEurope2025
  /\ localDay centralEurope2025 (utcInstant 2025 3 29 22)
     <= localDay centralEurope2025 (utcInstant 2025 3 29 23)
  /\ civil_leb (localCivil centralEurope2025 (utcInstant 2025 3 29 22)) (2037, 1, 28) = true
  /\ 0 <= daysLeft centralEurope2025 (utcInstant 2025 3 29 22) (utcInstant 2025 3 29 23).
Proof.
  assert (Hclock : localDay centralEurope2025 (utcInstant 2025 3 29 22)
                   <= localDay centralEurope2025 (utcInstant 2025 3 29 23))
    by (vm_compute; discriminate).
  assert (Hbefore : civil_leb (localCivil centralEurope2025 (utcInstant 2025 3 29 22))
                      (2037, 1, 28) = true)
    by (vm_compute; reflexivity).
  split; [exact centralEurope2025_within|].
  split; [exact centralEurope2025_forward|].
  split; [exact Hclock|]. split; [exact Hbefore|].
  exact (daysLeft_nonneg_until_fallback centralEurope2025
           (utcInstant 2025 3 29 22) (utcInstant 2025 3 29 23)
           centralEurope2025_within centralEurope2025_forward Hclock Hbefore).
Defined.

(** C8: [daysBetween a a] is 0, and so is [daysBetween a b] whenever [a]
    and [b] fall on one local calendar day, whatever their times of day and
    whatever the time zone. *)
Theorem daysBetween_zero_on_one_day tz a b :
  daysBetween tz a a = 0
  /\ (localCivil tz a = localCivil tz b -> daysBetween tz a b = 0).
Proof.
  split.
  - apply daysBetween_same_day. reflexivity.
  - apply daysBetween_same_day.
Qed.

Lemma daysBetween_zero_on_one_day_witness :
  localCivil centralEurope2025 (utcInstant 2025 1 28 23)
  = localCivil centralEurope2025 (utcInstant 2025 1 29 22)
  /\ daysBetween centralEurope2025 (utcInstant 2025 1 28 23) (utcInstant 2025 1 29 22) = 0.
Proof.
  assert (H : localCivil centralEurope2025 (utcInstant 2025 1 28 23)
              = localCivil centralEurope2025 (utcInstant 2025 1 29 22))
    by (vm_compute; reflexivity).
  split; [exact H|].
  exact (proj2 (daysBetween_zero_on_one_day centralEurope2025
                  (utcInstant 2025 1 28 23) (utcInstant 2025 1 29 22)) H).
Defined.

(** C9: [daysBetween a b = - daysBetween b a], in every time zone in which
    no two offsets differ by half a day modulo a day (then no quotient is a
    tie, the one case that [Math.round] does not round symmetrically). *)
Theorem daysBetween_antisymmetric tz a b :
  no_half_day_offsets tz ->
  daysBetween tz a b = - daysBetween tz b a.
Proof.
  intros H. rewrite !daysBetween_unfold. unfold UTC.
  set (B := rebuiltDay (LocalTime tz b)). set (A := rebuiltDay (LocalTime tz a)).
  specialize (H (A * msPerDay) false (B * msPerDay) false).
  set (oa := tz (A * msPerDay) false) in *.
  set (ob := tz (B * msPerDay) false) in *.
  clearbody A B oa ob. unfold msPerDay in *. euclid.
Qed.

Lemma daysBetween_antisymmetric_witness :
  no_half_day_offsets centralEurope2025
  /\ daysBetween centralEurope2025 (utcInstant 2025 3 29 22) (utcInstant 2025 4 2 5)
     = - daysBetween centralEurope2025 (utcInstant 2025 4 2 5) (utcInstant 2025 3 29 22).
Proof.
  split; [exact centralEurope2025_no_half|].
  exact (daysBetween_antisymmetric centralEurope2025
           (utcInstant 2025 3 29 22) (utcInstant 2025 4 2 5)
           centralEurope2025_no_half).
Defined.

(** C10: day counts chain, [daysBetween a c = daysBetween a b +
    daysBetween b c], although each call rounds on its own: with offsets
    less than half a day apart every call is exact. *)
Theorem daysBetween_additive tz a b c :
  offsets_within (msPerDay / 2) tz ->
  daysBetween tz a c = daysBetween tz a b + daysBetween tz b c.
Proof.
  intros H. rewrite !(daysBetween_rebuilt tz H). lia.
Qed.

Lemma daysBetween_additive_witness :
  offsets_within (msPerDay / 2) centralEurope2025
  /\ daysBetween centralEurope2025 (utcInstant 2025 3 1 9) (utcInstant 2025 12 24 9)
     = daysBetween centralEurope2025 (utcInstant 2025 3 1 9) (utcInstant 2025 6 15 9)
       + daysBetween centralEurope2025 (utcInstant 2025 6 15 9) (utcInstant 2025 12 24 9).
Proof.
  split; [exact centralEurope2025_within|].
  exact (daysBetween_additive centralEurope2025 (utcInstant 2025 3 1 9)
           (utcInstant 2025 6 15 9) (utcInstant 2025 12 24 9)
           centralEurope2025_within).
Defined.

(** ** The pattern of [isMobile] *)

Lemma matchLiteral_spec p : forall s,
  matchLiteral true p s = true
  <-> exists mid post : string,
        s = (mid ++ post)%string /\ foldCase mid = foldCase p.
Proof.
  induction p as [|a p IH]; intros s.
  - destruct s; (split; [intros _; exists EmptyString; eexists; split; reflexivity
                        | reflexivity]).
  - destruct s as [|b s].
    + split; [discriminate|].
      intros (mid & post & Hs & Hf). destruct mid; discriminate.
    + cbn [matchLiteral]. rewrite andb_true_iff, Ascii.eqb_eq, IH. split.
      * intros (Hc & mid & post & -> & Hf).
        exists (String b mid), post. split; [reflexivity|].
        cbn [foldCase]. rewrite Hc, Hf. reflexivity.
      * intros (mid & post & Hs & Hf).
        destruct mid as [|c mid]; [discriminate|].
        cbn [foldCase append] in Hs, Hf.
        injection Hs as -> ->. injection Hf as Hc Hf.
        split; [symmetry; exact Hc|]. exists mid, post. split; [reflexivity | exact Hf].
Qed.

Lemma test_sound re : ignoreCase re = true -> forall s,
  test re s = true ->
  exists p, In p (alternatives re) /\ occursFolded p s.
Proof.
  intros Hic. induction s as [|c s IH]; cbn [test]; rewrite Hic;
    rewrite orb_true_iff, existsb_exists.
  - intros [(p & Hin & Hm)|H]; [|discriminate].
    apply matchLiteral_spec in Hm as (mid & post & Hs & Hf).
    exists p. split; [exact Hin|]. exists EmptyString, mid, post. auto.
  - intros [(p & Hin & Hm)|H].
    + apply matchLiteral_spec in Hm as (mid & post & Hs & Hf).
      exists p. split; [exact Hin|]. exists EmptyString, mid, post. auto.
    + destruct (IH H) as (p & Hin & pre & mid & post & -> & Hf).
      exists p. split; [exact Hin|]. exists (String c pre), mid, post. auto.
Qed.

Lemma test_complete re p mid post :
  ignoreCase re = true -> In p (alternatives re) ->
  foldCase mid = foldCase p ->
  forall pre, test re (pre ++ mid ++ post) = true.
Proof.
  intros Hic Hin Hf.
  assert (Hhere : forall s, s = (mid ++ post)%string -> test re s = true).
  { intros s ->.
    assert (E : existsb (fun q => matchLiteral (ignoreCase re) q (mid ++ post))
                  (alternatives re) = true).
    { apply existsb_exists. exists p. split; [exact Hin|].
      rewrite Hic. apply matchLiteral_spec. exists mid, post. auto. }
    destruct (mid ++ post)%string; cbn [test]; rewrite E; reflexivity. }
  induction pre as [|c pre IH].
  - apply Hhere. reflexivity.
  - cbn [append test]. rewrite IH. apply orb_true_r.
Qed.

(** C7: [isMobile] depends on the client string alone and holds exactly
    when one of the eight listed names occurs in it up to the case of ASCII
    letters; so it holds for every string in which "iPhone" occurs, and
    fails for every string in which "Macintosh" occurs and none of the names
    does. *)
Theorem isMobile_matches_up_to_case ua :
  (isMobile ua = true
   <-> exists p, In p (alternatives mobilePattern) /\ occursFolded p ua)
  /\ (occurs "iPhone" ua -> isMobile ua = true)
  /\ (occurs "Macintosh" ua ->
      (forall p, In p (alternatives mobilePattern) -> ~ occursFolded p ua) ->
      isMobile ua = false).
Proof.
  assert (Hiff : isMobile ua = true
                 <-> exists p, In p (alternatives mobilePattern) /\ occursFolded p ua).
  { unfold isMobile. split.
    - apply test_sound. reflexivity.
    - intros (p & Hin & pre & mid & post & -> & Hf).
      apply (test_complete mobilePattern p); auto. }
  split; [exact Hiff|]. split.
  - intros (pre & post & ->). apply Hiff. exists "iPhone"%string. split.
    + cbn. auto.
    + exists pre, "iPhone"%string, post. auto.
  - intros _ Hnone. destruct (isMobile ua) eqn:E; [|reflexivity].
    destruct (proj1 Hiff eq_refl) as (p & Hin & Hocc).
    destruct (Hnone p Hin Hocc).
Qed.

Lemma isMobile_matches_up_to_case_witness :
  occurs "iPhone" "Mozilla/5.0 (iPhone; CPU iPhone OS 17_0 like Mac OS X)"
  /\ isMobile "Mozilla/5.0 (iPhone; CPU iPhone OS 17_0 like Mac OS X)" = true
  /\ occurs "Macintosh" "Mozilla/5.0 (Macintosh; Intel Mac OS X 10_15_7)"
  /\ (forall p, In p (alternatives mobilePattern) ->
        ~ occursFolded p "Mozilla/5.0 (Macintosh; Intel Mac OS X 10_15_7)")
  /\ isMobile "Mozilla/5.0 (Macintosh; Intel Mac OS X 10_15_7)" = false.
Proof.
  assert (H1 : occurs "iPhone" "Mozilla/5.0 (iPhone; CPU iPhone OS 17_0 like Mac OS X)")
    by (unfold occurs; exists "Mozilla/5.0 ("%string;
        exists "; CPU iPhone OS 17_0 like Mac OS X)"%string; reflexivity).
  assert (H2 : occurs "Macintosh" "Mozilla/5.0 (Macintosh; Intel Mac OS X 10_15_7)")
    by (unfold occurs; exists "Mozilla/5.0 ("%string;
        exists "; Intel Mac OS X 10_15_7)"%string; reflexivity).
  assert (H3 : forall p, In p (alternatives mobilePattern) ->
                 ~ occursFolded p "Mozilla/5.0 (Macintosh; Intel Mac OS X 10_15_7)").
  { intros p Hin Hocc.
    assert (E : isMobile "Mozilla/5.0 (Macintosh; Intel Mac OS X 10_15_7)" = true)
      by (apply (proj2 (proj1 (isMobile_matches_up_to_case _))); exists p; auto).
    vm_compute in E. discriminate E. }
  split; [exact H1|].
  split; [exact (proj1 (proj2 (isMobile_matches_up_to_case _)) H1)|].
  split; [exact H2|]. split; [exact H3|].
  exact (proj2 (proj2 (isMobile_matches_up_to_case _)) H2 H3).
Defined.

(** ** The export handlers *)

Ltac run_handler :=
  unfold copyToClipboard, downloadImage, blobCallback, captureCard, showToast,
    try_catch, bind, call, emit, ret, trace, escapes.

(* case analysis on the innermost answers of the browser first *)
Ltac split_outcomes :=
  repeat (match goal with
          | |- context [match ?x with _ => _ end] =>
              lazymatch x with
              | context [match _ with _ => _ end] => fail
              | _ => destruct x eqn:?
              end
          end; cbn [fst snd app]).

Lemma copyToClipboard_returns env : escapes (copyToClipboard env) = false.
Proof. run_handler. split_outcomes; reflexivity. Qed.

Lemma downloadImage_returns env n : escapes (downloadImage env n) = false.
Proof. run_handler. split_outcomes; reflexivity. Qed.

Lemma copyToClipboard_unmounted env :
  capture_null env -> trace (copyToClipboard env) = [].
Proof. unfold capture_null. intros H. run_handler. rewrite H. reflexivity. Qed.

Lemma downloadImage_unmounted env n :
  capture_null env -> trace (downloadImage env n) = [].
Proof. unfold capture_null. intros H. run_handler. rewrite H. reflexivity. Qed.

(** The successful runs, and the dispatch of [handleClick]. *)
Example copyToClipboard_working :
  copyToClipboard working
  = ([ClipboardWritten (pngOf (canvasOf theCard));
      SetToast (Some copiedMsg); SetTimeout 2000], Returns tt).
Proof. reflexivity. Qed.

Example downloadImage_working :
  downloadImage working 28
  = ([DownloadStarted "data:image/png;base64,AAAA" (downloadName 28);
      SetToast (Some savedMsg); SetTimeout 2000], Returns tt).
Proof. reflexivity. Qed.

Example handleClick_dispatch :
  handleClick "Mozilla/5.0 (iPhone; CPU iPhone OS 17_0 like Mac OS X)" working 28
  = downloadImage working 28
  /\ handleClick "Mozilla/5.0 (Macintosh; Intel Mac OS X 10_15_7)" working 28
     = copyToClipboard working.
Proof. split; reflexivity. Qed.

(** C5, where it fails as stated: with the card not mounted both handlers
    end without any notification, and so does [copyToClipboard] when
    [toBlob] yields no blob. *)
Lemma export_silent_failure_counterexample :
  capture_null unmounted
  /\ trace (copyToClipboard unmounted) = []
  /\ trace (downloadImage unmounted 28) = []
  /\ ~ shows copyFailedMsg (trace (copyToClipboard unmounted))
  /\ ~ shows saveFailedMsg (trace (downloadImage unmounted 28))
  /\ blob_null emptyBlob
  /\ ~ shows copyFailedMsg (trace (copyToClipboard emptyBlob)).
Proof.
  repeat split; try reflexivity.
  - intros [H _]. exact H.
  - intros [H _]. exact H.
  - exists (canvasOf theCard). split; [exists theCard; split|]; reflexivity.
  - intros [H _]. exact H.
Qed.

(** The effects of [copyToClipboard], by the answers of the browser. *)
Lemma copy_trace_cases env :
  let tr := trace (copyToClipboard env) in
  match cardRef_current env with
  | None => tr = []
  | Some n =>
      match html2canvas env n with
      | Throws => tr = [SetToast (Some copyFailedMsg); SetTimeout 2000]
      | Returns c =>
          match toBlob env c with
          | Throws => tr = [SetToast (Some copyFailedMsg); SetTimeout 2000]
          | Returns None => tr = []
          | Returns (Some b) =>
              match clipboard_write env b with
              | Throws => tr = [SetToast (Some copyFailedMsg); SetTimeout 2000]
              | Returns _ =>
                  tr = [ClipboardWritten b; SetToast (Some copiedMsg); SetTimeout 2000]
              end
          end
      end
  end.
Proof. cbv zeta. run_handler. split_outcomes; reflexivity. Qed.

(** The effects of [downloadImage], by the answers of the browser. *)
Lemma download_trace_cases env n :
  let tr := trace (downloadImage env n) in
  let failed := [SetToast (Some saveFailedMsg); SetTimeout 2000] in
  match cardRef_current env with
  | None => tr = []
  | Some k =>
      match html2canvas env k with
      | Throws => tr = failed
      | Returns c =>
          match toDataURL env c with
          | Throws => tr = failed
          | Returns url =>
              match appendChild env, click env, removeChild env with
              | Returns _, Returns _, Returns _ =>
                  tr = [DownloadStarted url (downloadName n);
                        SetToast (Some savedMsg); SetTimeout 2000]
              | Returns _, Returns _, Throws =>
                  tr = DownloadStarted url (downloadName n) :: failed
              | _, _, _ => tr = failed
              end
          end
      end
  end.
Proof. cbv zeta. run_handler. split_outcomes; reflexivity. Qed.

Lemma shows_failed msg : shows msg [SetToast (Some msg); SetTimeout 2000].
Proof. unfold shows. cbn [In]. auto. Qed.

Lemma shows_failed_after e msg : shows msg [e; SetToast (Some msg); SetTimeout 2000].
Proof. unfold shows. cbn [In]. auto. Qed.

Lemma failed_writes_nothing msg :
  ~ writes_clipboard [SetToast (Some msg); SetTimeout 2000].
Proof.
  intros (b & Hb). cbn [In] in Hb.
  destruct Hb as [Hb|[Hb|Hb]]; [discriminate Hb | discriminate Hb | exact Hb].
Qed.

(** C5, amended: a failure that reaches a handler as an exception (the
    capture rejected, [toBlob] or [toDataURL] throwing, a step of the
    download throwing, the clipboard write rejected) ends in the failure
    notification of that handler; an unmounted card, and a null blob in
    [copyToClipboard], end the handler with no notification and no other
    effect. *)
Theorem export_failures_notified_when_thrown env n :
  (capture_rejected env \/ blob_throws env \/ write_denied env ->
   shows copyFailedMsg (trace (copyToClipboard env))
   /\ ~ writes_clipboard (trace (copyToClipboard env)))
  /\ (capture_rejected env \/ url_throws env \/ dom_throws env ->
      shows saveFailedMsg (trace (downloadImage env n)))
  /\ (capture_null env \/ blob_null env -> trace (copyToClipboard env) = [])
  /\ (capture_null env -> trace (downloadImage env n) = []).
Proof.
  pose proof (copy_trace_cases env) as Tc.
  pose proof (download_trace_cases env n) as Td. cbv zeta in Tc, Td.
  split; [|split; [|split]].
  - intros [(k & Hr & Hh)|[(c & (k & Hr & Hh) & Hb)
                          |(c & b & (k & Hr & Hh) & Hb & Hw)]];
      rewrite Hr, Hh in Tc; rewrite ?Hb, ?Hw in Tc; rewrite Tc;
      (split; [apply shows_failed | apply failed_writes_nothing]).
  - intros [(k & Hr & Hh)|[(c & (k & Hr & Hh) & Hu)
                          |(c & url & (k & Hr & Hh) & Hu & Hd)]];
      rewrite Hr, Hh in Td; rewrite ?Hu in Td.
    + rewrite Td. apply shows_failed.
    + rewrite Td. apply shows_failed.
    + destruct (appendChild env), (click env), (removeChild env);
        try (rewrite Td; apply shows_failed || apply shows_failed_after).
      destruct Hd as [Hd|[Hd|Hd]]; discriminate Hd.
  - intros [H|(c & (k & Hr & Hh) & Hb)].
    + apply copyToClipboard_unmounted. exact H.
    + rewrite Hr, Hh, Hb in Tc. exact Tc.
  - apply downloadImage_unmounted.
Qed.

Lemma export_failures_notified_when_thrown_witness :
  write_denied clipboardDenied
  /\ url_throws clipboardDenied
  /\ shows copyFailedMsg (trace (copyToClipboard clipboardDenied))
  /\ shows saveFailedMsg (trace (downloadImage clipboardDenied 28))
  /\ capture_null unmounted
  /\ trace (copyToClipboard unmounted) = []
  /\ trace (downloadImage unmounted 28) = [].
Proof.
  assert (Hc : captured clipboardDenied (canvasOf theCard))
    by (exists theCard; split; reflexivity).
  assert (Hw : write_denied clipboardDenied)
    by (exists (canvasOf theCard), (pngOf (canvasOf theCard));
        split; [exact Hc | split; reflexivity]).
  assert (Hu : url_throws clipboardDenied)
    by (exists (canvasOf theCard); split; [exact Hc | reflexivity]).
  assert (Hn : capture_null unmounted) by reflexivity.
  pose proof (export_failures_notified_when_thrown clipboardDenied 28)
    as (Hcopy & Hsave & _ & _).
  pose proof (export_failures_notified_when_thrown unmounted 28)
    as (_ & _ & Hquiet & Hquiet').
  split; [exact Hw|]. split; [exact Hu|].
  split; [exact (proj1 (Hcopy (or_intror (or_intror Hw))))|].
  split; [exact (Hsave (or_intror (or_introl Hu)))|].
  split; [exact Hn|].
  split; [exact (Hquiet (or_introl Hn)) | exact (Hquiet' Hn)].
Defined.

(** C6: no exception leaves [copyToClipboard] or [downloadImage], whatever
    the browser answers; and with the card not mounted neither handler has
    any effect: no clipboard write, no download. *)
Theorem export_handlers_never_throw env n :
  escapes (copyToClipboard env) = false
  /\ escapes (downloadImage env n) = false
  /\ (capture_null env ->
      trace (copyToClipboard env) = []
      /\ trace (downloadImage env n) = []
      /\ ~ writes_clipboard (trace (copyToClipboard env))
      /\ ~ starts_download (trace (downloadImage env n))).
Proof.
  split; [apply copyToClipboard_returns|].
  split; [apply downloadImage_returns|].
  intros H.
  rewrite (copyToClipboard_unmounted env H), (downloadImage_unmounted env n H).
  repeat split.
  - intros (b & Hb). destruct Hb.
  - intros (href & name & Hd). destruct Hd.
Qed.

Lemma export_handlers_never_throw_witness :
  capture_null unmounted
  /\ escapes (copyToClipboard unmounted) = false
  /\ escapes (downloadImage unmounted 28) = false
  /\ ~ writes_clipboard (trace (copyToClipboard unmounted))
  /\ ~ starts_download (trace (downloadImage unmounted 28)).
Proof.
  assert (Hn : capture_null unmounted) by reflexivity.
  pose proof (export_handlers_never_throw unmounted 28) as (H1 & H2 & H3).
  destruct (H3 Hn) as (_ & _ & H4 & H5).
  split; [exact Hn|]. split; [exact H1|]. split; [exact H2|].
  split; [exact H4 | exact H5].
Defined.

(* ================================================================== *)
(** * Further properties of the code *)

(** ** The countdown *)

Lemma nextHolidayDay_unfold n :
  nextHolidayDay n
  = if n <=? 20117 then 20117 else if n <=? 20501 then 20501
    else if n <=? 20855 then 20855 else if n <=? 21209 then 21209
    else if n <=? 21593 then 21593 else if n <=? 21948 then 21948
    else if n <=? 22302 then 22302 else if n <=? 22686 then 22686
    else if n <=? 23041 then 23041 else if n <=? 23425 then 23425
    else if n <=? 23779 then 23779 else if n <=? 24133 then 24133
    else 24499.
Proof.
  unfold nextHolidayDay, CNY_DATES. cbn [find].
  repeat match goal with
         | |- context [dayOfCivil ?c] =>
             let v := eval vm_compute in (dayOfCivil c) in
             change (dayOfCivil c) with v
         end.
  repeat match goal with
         | |- context [if ?b then _ else _] => destruct b
         end; reflexivity.
Qed.

Ltac split_days :=
  repeat match goal with
         | |- context [Z.leb ?a ?b] => destruct (Z.leb_spec a b)
         | H : context [Z.leb ?a ?b] |- _ => destruct (Z.leb_spec a b)
         end.

Lemma nextHolidayDay_ge n : n <= 24499 -> n <= nextHolidayDay n.
Proof. rewrite nextHolidayDay_unfold. intros H. split_days; lia. Qed.

Lemma nextHolidayDay_mono n1 n2 :
  n1 <= n2 -> nextHolidayDay n1 <= nextHolidayDay n2.
Proof. rewrite !nextHolidayDay_unfold. intros H. split_days; lia. Qed.

Lemma nextHolidayDay_idem n : nextHolidayDay (nextHolidayDay n) = nextHolidayDay n.
Proof.
  rewrite (nextHolidayDay_unfold n). split_days;
    rewrite nextHolidayDay_unfold; reflexivity.
Qed.

Lemma nextHolidayDay_step n :
  nextHolidayDay n <> n -> nextHolidayDay (n + 1) = nextHolidayDay n.
Proof. rewrite !nextHolidayDay_unfold. intros H. split_days; lia. Qed.

Lemma nextHolidayDay_near n :
  20117 <= n <= 24499 -> 0 <= nextHolidayDay n - n <= 383.
Proof. rewrite nextHolidayDay_unfold. intros H. split_days; lia. Qed.

Lemma dayOfCivil_civilOfDay n : dayOfCivil (civilOfDay n) = n.
Proof.
  unfold civilOfDay, dayOfCivil. rewrite Z.add_simpl_r, MakeDay_fields.
  apply Day_MakeDate. unfold msPerDay. lia.
Qed.

Lemma civil_leb_day n c :
  entry_ok c = true -> civil_leb (civilOfDay n) c = (n <=? dayOfCivil c).
Proof.
  intros H. apply entry_ok_facts in H as (Hc & _).
  rewrite <- Hc at 1. apply civil_order.
Qed.

Lemma find_by_day n table :
  forallb entry_ok table = true ->
  find (fun e => civil_leb (civilOfDay n) e) table
  = find (fun e => n <=? dayOfCivil e) table.
Proof.
  induction table as [|c rest IH]; [reflexivity|].
  cbn [forallb find]. rewrite andb_true_iff. intros [Hc Hrest].
  rewrite (civil_leb_day n c Hc), (IH Hrest). reflexivity.
Qed.

Lemma fallback_ok : entry_ok (2037, 1, 28) = true.
Proof. vm_compute. reflexivity. Qed.

Lemma getNextCNY_picks tz now :
  offsets_within msPerDay tz ->
  exists c, entry_ok c = true
            /\ getNextCNY tz now = newDateOf tz c
            /\ dayOfCivil c = nextHolidayDay (localDay tz now).
Proof.
  intros Hw. rewrite (getNextCNY_find tz Hw now), localCivil_localDay.
  unfold nextHolidayDay. rewrite (find_by_day _ _ CNY_DATES_ok).
  destruct (find _ CNY_DATES) as [c|] eqn:Hfind.
  - exists c. split; [|split; reflexivity].
    apply find_some in Hfind as [Hin _].
    pose proof CNY_DATES_ok as Hall. rewrite forallb_forall in Hall. auto.
  - exists (2037, 1, 28). split; [exact fallback_ok | split; reflexivity].
Qed.

Lemma getNextCNY_day tz now :
  offsets_within msPerDay tz ->
  getNextCNY tz now = UTC tz (nextHolidayDay (localDay tz now) * msPerDay).
Proof.
  intros Hw. destruct (getNextCNY_picks tz now Hw) as (c & Hok & -> & <-).
  apply newDateOf_midnight. exact Hok.
Qed.

Lemma daysLeft_days tz now1 now2 :
  offsets_within (msPerDay / 2) tz -> resolves_forward tz ->
  daysLeft tz now1 now2
  = nextHolidayDay (localDay tz now2) - rebuiltDay (LocalTime tz now1).
Proof.
  intros Hh Hr. pose proof (within_half_within_day tz Hh) as Hw.
  unfold daysLeft. rewrite (daysBetween_rebuilt tz Hh).
  rewrite (rebuiltDay_todayOf tz Hw Hr now1).
  destruct (getNextCNY_picks tz now2 Hw) as (c & Hok & -> & <-).
  rewrite (rebuiltDay_newDateOf tz Hw Hr c Hok). reflexivity.
Qed.

Lemma daysLeft_days_full tz now1 now2 :
  offsets_within (msPerDay / 2) tz -> resolves_forward tz ->
  fullYear (getFullYear tz now1) ->
  daysLeft tz now1 now2 = nextHolidayDay (localDay tz now2) - localDay tz now1.
Proof.
  intros Hh Hr Hf. rewrite (daysLeft_days tz now1 now2 Hh Hr).
  rewrite rebuiltDay_full by exact Hf. reflexivity.
Qed.

Lemma holiday_days n :
  nextHolidayDay n = n <-> In (civilOfDay n) (CNY_DATES ++ [(2037, 1, 28)]).
Proof.
  split.
  - rewrite nextHolidayDay_unfold. intros H.
    split_days; subst n; vm_compute;
      repeat (try (left; reflexivity); right); lia.
  - intros H. apply (in_map dayOfCivil) in H.
    rewrite dayOfCivil_civilOfDay in H. vm_compute in H.
    repeat (destruct H as [H|H]; [subst n; vm_compute; reflexivity|]).
    destruct H.
Qed.

(** X1: with the clock in a year written in full, [daysLeft] is the number
    of calendar days from today's local date to the first table entry on or
    after it, and to the fallback 2037-01-28 when no entry is left. *)
Theorem daysLeft_counts_to_next_holiday tz now1 now2 :
  offsets_within (msPerDay / 2) tz -> resolves_forward tz ->
  fullYear (getFullYear tz now1) ->
  (forall c,
      find (fun e => civil_leb (localCivil tz now2) e) CNY_DATES = Some c ->
      daysLeft tz now1 now2 = dayOfCivil c - localDay tz now1)
  /\ (find (fun e => civil_leb (localCivil tz now2) e) CNY_DATES = None ->
      daysLeft tz now1 now2 = dayOfCivil (2037, 1, 28) - localDay tz now1).
Proof.
  intros Hh Hr Hf. rewrite (daysLeft_days_full tz now1 now2 Hh Hr Hf).
  rewrite localCivil_localDay, (find_by_day _ _ CNY_DATES_ok).
  unfold nextHolidayDay. split.
  - intros c ->. reflexivity.
  - intros ->. reflexivity.
Qed.

Lemma fullYear_2025 tz d :
  civil_leb (2025, 1, 29) (localCivil tz d) = true -> fullYear (getFullYear tz d).
Proof.
  unfold localCivil. rewrite civil_leb_spec. unfold fullYear. lia.
Qed.

Lemma daysLeft_counts_to_next_holiday_witness :
  offsets_within (msPerDay / 2) centralEurope2025
  /\ resolves_forward centralEurope2025
  /\ fullYear (getFullYear centralEurope2025 (utcInstant 2025 3 1 12))
  /\ find (fun e => civil_leb (localCivil centralEurope2025 (utcInstant 2025 3 1 12)) e)
       CNY_DATES = Some (2026, 2, 17)
  /\ daysLeft centralEurope2025 (utcInstant 2025 3 1 12) (utcInstant 2025 3 1 12)
     = dayOfCivil (2026, 2, 17) - localDay centralEurope2025 (utcInstant 2025 3 1 12).
Proof.
  assert (Hf : fullYear (getFullYear centralEurope2025 (utcInstant 2025 3 1 12)))
    by (apply fullYear_2025; vm_compute; reflexivity).
  assert (Hfind : find (fun e => civil_leb (localCivil centralEurope2025
                                             (utcInstant 2025 3 1 12)) e)
                    CNY_DATES = Some (2026, 2, 17))
    by (vm_compute; reflexivity).
  split; [exact centralEurope2025_within|].
  split; [exact centralEurope2025_forward|].
  split; [exact Hf|]. split; [exact Hfind|].
  exact (proj1 (daysLeft_counts_to_next_holiday centralEurope2025
                  (utcInstant 2025 3 1 12) (utcInstant 2025 3 1 12)
                  centralEurope2025_within centralEurope2025_forward Hf)
           (2026, 2, 17) Hfind).
Defined.

(** X2: [daysLeft] is 0 exactly on the days of the table and on the day of
    the fallback. *)
Theorem daysLeft_zero_iff_holiday tz now :
  offsets_within (msPerDay / 2) tz -> resolves_forward tz ->
  fullYear (getFullYear tz now) ->
  (daysLeft tz now now = 0
   <-> In (localCivil tz now) (CNY_DATES ++ [(2037, 1, 28)])).
Proof.
  intros Hh Hr Hf. rewrite (daysLeft_days_full tz now now Hh Hr Hf).
  rewrite localCivil_localDay, <- holiday_days. lia.
Qed.

Lemma daysLeft_zero_iff_holiday_witness :
  offsets_within (msPerDay / 2) centralEurope2025
  /\ resolves_forward centralEurope2025
  /\ fullYear (getFullYear centralEurope2025 (utcInstant 2026 2 17 12))
  /\ In (localCivil centralEurope2025 (utcInstant 2026 2 17 12))
       (CNY_DATES ++ [(2037, 1, 28)])
  /\ daysLeft centralEurope2025 (utcInstant 2026 2 17 12) (utcInstant 2026 2 17 12) = 0.
Proof.
  assert (Hf : fullYear (getFullYear centralEurope2025 (utcInstant 2026 2 17 12)))
    by (apply fullYear_2025; vm_compute; reflexivity).
  assert (Hin : In (localCivil centralEurope2025 (utcInstant 2026 2 17 12))
                  (CNY_DATES ++ [(2037, 1, 28)]))
    by (vm_compute; right; left; reflexivity).
  split; [exact centralEurope2025_within|].
  split; [exact centralEurope2025_forward|].
  split; [exact Hf|]. split; [exact Hin|].
  exact (proj2 (daysLeft_zero_iff_holiday centralEurope2025 (utcInstant 2026 2 17 12)
                  centralEurope2025_within centralEurope2025_forward Hf) Hin).
Defined.

(** X3: from one local day to the next the count goes down by one, unless
    the first of the two days is a holiday (count 0). *)
Theorem daysLeft_steps_down tz now next :
  offsets_within (msPerDay / 2) tz -> resolves_forward tz ->
  fullYear (getFullYear tz now) -> fullYear (getFullYear tz next) ->
  localDay tz next = localDay tz now + 1 ->
  daysLeft tz now now <> 0 ->
  daysLeft tz next next = daysLeft tz now now - 1.
Proof.
  intros Hh Hr Hf Hf' Hnext.
  rewrite (daysLeft_days_full tz now now Hh Hr Hf).
  rewrite (daysLeft_days_full tz next next Hh Hr Hf'), Hnext.
  intros Hnz. rewrite nextHolidayDay_step by lia. lia.
Qed.

Lemma daysLeft_steps_down_witness :
  offsets_within (msPerDay / 2) centralEurope2025
  /\ resolves_forward centralEurope2025
  /\ fullYear (getFullYear centralEurope2025 (utcInstant 2025 3 29 12))
  /\ fullYear (getFullYear centralEurope2025 (utcInstant 2025 3 30 12))
  /\ localDay centralEurope2025 (utcInstant 2025 3 30 12)
     = localDay centralEurope2025 (utcInstant 2025 3 29 12) + 1
  /\ daysLeft centralEurope2025 (utcInstant 2025 3 29 12) (utcInstant 2025 3 29 12) <> 0
  /\ daysLeft centralEurope2025 (utcInstant 2025 3 30 12) (utcInstant 2025 3 30 12)
     = daysLeft centralEurope2025 (utcInstant 2025 3 29 12) (utcInstant 2025 3 29 12) - 1.
Proof.
  assert (Hf : fullYear (getFullYear centralEurope2025 (utcInstant 2025 3 29 12)))
    by (apply fullYear_2025; vm_compute; reflexivity).
  assert (Hf' : fullYear (getFullYear centralEurope2025 (utcInstant 2025 3 30 12)))
    by (apply fullYear_2025; vm_compute; reflexivity).
  assert (Hnext : localDay centralEurope2025 (utcInstant 2025 3 30 12)
                  = localDay centralEurope2025 (utcInstant 2025 3 29 12) + 1)
    by (vm_compute; reflexivity).
  assert (Hnz : daysLeft centralEurope2025 (utcInstant 2025 3 29 12)
                  (utcInstant 2025 3 29 12) <> 0)
    by (vm_compute; discriminate).
  split; [exact centralEurope2025_within|].
  split; [exact centralEurope2025_forward|].
  split; [exact Hf|]. split; [exact Hf'|]. split; [exact Hnext|].
  split; [exact Hnz|].
  exact (daysLeft_steps_down centralEurope2025 (utcInstant 2025 3 29 12)
           (utcInstant 2025 3 30 12) centralEurope2025_within
           centralEurope2025_forward Hf Hf' Hnext Hnz).
Defined.

(** X4: the holiday that [getNextCNY] returns never moves back as the
    clock's local day advances. *)
Theorem getNextCNY_monotone tz now1 now2 :
  offsets_within msPerDay tz ->
  localDay tz now1 <= localDay tz now2 ->
  getTime (getNextCNY tz now1) <= getTime (getNextCNY tz now2).
Proof.
  intros Hw Hle. unfold getTime.
  rewrite !(getNextCNY_day tz _ Hw).
  pose proof (nextHolidayDay_mono _ _ Hle) as Hm.
  apply Z.geb_le. rewrite (UTC_midnight_geb tz Hw). apply Z.geb_le. exact Hm.
Qed.

Lemma getNextCNY_monotone_witness :
  offsets_within msPerDay centralEurope2025
  /\ localDay centralEurope2025 (utcInstant 2026 2 17 12)
     <= localDay centralEurope2025 (utcInstant 2026 2 18 12)
  /\ getTime (getNextCNY centralEurope2025 (utcInstant 2026 2 17 12))
     <= getTime (getNextCNY centralEurope2025 (utcInstant 2026 2 18 12)).
Proof.
  assert (Hle : localDay centralEurope2025 (utcInstant 2026 2 17 12)
                <= localDay centralEurope2025 (utcInstant 2026 2 18 12))
    by (vm_compute; discriminate).
  split; [exact centralEurope2025_within_day|]. split; [exact Hle|].
  exact (getNextCNY_monotone centralEurope2025 (utcInstant 2026 2 17 12)
           (utcInstant 2026 2 18 12) centralEurope2025_within_day Hle).
Defined.

(** X5: on the day it returns, [getNextCNY] returns that same day: the
    next holiday of a holiday is itself. *)
Theorem getNextCNY_of_holiday tz now :
  offsets_within msPerDay tz -> resolves_forward tz ->
  getNextCNY tz (getNextCNY tz now) = getNextCNY tz now.
Proof.
  intros Hw Hr. rewrite (getNextCNY_day tz (getNextCNY tz now) Hw).
  rewrite (getNextCNY_day tz now Hw).
  rewrite (localDay_midnight tz Hw Hr), nextHolidayDay_idem. reflexivity.
Qed.

Lemma getNextCNY_of_holiday_witness :
  offsets_within msPerDay centralEurope2025
  /\ resolves_forward centralEurope2025
  /\ getNextCNY centralEurope2025 (getNextCNY centralEurope2025 (utcInstant 2030 6 1 12))
     = getNextCNY centralEurope2025 (utcInstant 2030 6 1 12).
Proof.
  split; [exact centralEurope2025_within_day|].
  split; [exact centralEurope2025_forward|].
  exact (getNextCNY_of_holiday centralEurope2025 (utcInstant 2030 6 1 12)
           centralEurope2025_within_day centralEurope2025_forward).
Defined.

(** X6: from the first table entry to the day of the fallback the count
    stays between 0 and 383. *)
Theorem daysLeft_bounded_in_table_range tz now :
  offsets_within (msPerDay / 2) tz -> resolves_forward tz ->
  civil_leb (2025, 1, 29) (localCivil tz now) = true ->
  civil_leb (localCivil tz now) (2037, 1, 28) = true ->
  0 <= daysLeft tz now now <= 383.
Proof.
  intros Hh Hr Hlo Hhi.
  rewrite (daysLeft_days_full tz now now Hh Hr (fullYear_2025 tz now Hlo)).
  apply nextHolidayDay_near.
  rewrite localCivil_localDay in Hlo, Hhi.
  change (2025, 1, 29) with (civilOfDay 20117) in Hlo.
  rewrite civil_order in Hlo.
  rewrite (civil_leb_day _ _ fallback_ok) in Hhi.
  apply Z.leb_le in Hlo, Hhi. change (dayOfCivil (2037, 1, 28)) with 24499 in Hhi.
  lia.
Qed.

Lemma daysLeft_bounded_in_table_range_witness :
  offsets_within (msPerDay / 2) centralEurope2025
  /\ resolves_forward centralEurope2025
  /\ civil_leb (2025, 1, 29) (localCivil centralEurope2025 (utcInstant 2025 1 30 12)) = true
  /\ civil_leb (localCivil centralEurope2025 (utcInstant 2025 1 30 12)) (2037, 1, 28) = true
  /\ 0 <= daysLeft centralEurope2025 (utcInstant 2025 1 30 12) (utcInstant 2025 1 30 12)
     <= 383.
Proof.
  assert (Hlo : civil_leb (2025, 1, 29)
                  (localCivil centralEurope2025 (utcInstant 2025 1 30 12)) = true)
    by (vm_compute; reflexivity).
  assert (Hhi : civil_leb (localCivil centralEurope2025 (utcInstant 2025 1 30 12))
                  (2037, 1, 28) = true)
    by (vm_compute; reflexivity).
  split; [exact centralEurope2025_within|].
  split; [exact centralEurope2025_forward|].
  split; [exact Hlo|]. split; [exact Hhi|].
  exact (daysLeft_bounded_in_table_range centralEurope2025 (utcInstant 2025 1 30 12)
           centralEurope2025_within centralEurope2025_forward Hlo Hhi).
Defined.

Lemma todayOf_same_day tz a b :
  localCivil tz a = localCivil tz b -> todayOf tz a = todayOf tz b.
Proof.
  unfold localCivil. intros H. injection H as Hy Hm Hd.
  assert (Hm' : getMonth tz a = getMonth tz b) by lia.
  unfold todayOf. rewrite Hy, Hm', Hd. reflexivity.
Qed.

(** X7: [getNextCNY] and [daysLeft] depend on the local calendar dates of
    the clock reads only, not on the time of day, in every time zone. *)
Theorem countdown_constant_within_a_day tz now1 now2 later1 later2 :
  localCivil tz now1 = localCivil tz later1 ->
  localCivil tz now2 = localCivil tz later2 ->
  getNextCNY tz now2 = getNextCNY tz later2
  /\ daysLeft tz now1 now2 = daysLeft tz later1 later2.
Proof.
  intros H1 H2.
  assert (E : getNextCNY tz now2 = getNextCNY tz later2).
  { unfold getNextCNY. cbv zeta. rewrite (todayOf_same_day tz _ _ H2). reflexivity. }
  split; [exact E|].
  unfold daysLeft. rewrite E, (todayOf_same_day tz _ _ H1). reflexivity.
Qed.

Lemma countdown_constant_within_a_day_witness :
  localCivil centralEurope2025 (utcInstant 2025 6 1 0)
  = localCivil centralEurope2025 (utcInstant 2025 6 1 21)
  /\ daysLeft centralEurope2025 (utcInstant 2025 6 1 0) (utcInstant 2025 6 1 0)
     = daysLeft centralEurope2025 (utcInstant 2025 6 1 21) (utcInstant 2025 6 1 21).
Proof.
  assert (H : localCivil centralEurope2025 (utcInstant 2025 6 1 0)
              = localCivil centralEurope2025 (utcInstant 2025 6 1 21))
    by (vm_compute; reflexivity).
  split; [exact H|].
  exact (proj2 (countdown_constant_within_a_day centralEurope2025
                  (utcInstant 2025 6 1 0) (utcInstant 2025 6 1 0)
                  (utcInstant 2025 6 1 21) (utcInstant 2025 6 1 21) H H)).
Defined.

(** X8: truncating a time to its local midnight twice is the same as doing
    it once (as [daysBetween] does to [today]), and the truncation keeps the
    local date of a year written in full. *)
Theorem todayOf_idempotent tz now :
  offsets_within msPerDay tz -> resolves_forward tz ->
  todayOf tz (todayOf tz now) = todayOf tz now
  /\ (fullYear (getFullYear tz now) ->
      localCivil tz (todayOf tz now) = localCivil tz now).
Proof.
  intros Hw Hr. split.
  - rewrite (todayOf_unfold tz (todayOf tz now)).
    rewrite (rebuiltDay_todayOf tz Hw Hr now). symmetry. apply todayOf_unfold.
  - intros Hf. rewrite !localCivil_localDay. f_equal.
    rewrite todayOf_unfold, (localDay_midnight tz Hw Hr).
    rewrite rebuiltDay_full by exact Hf. symmetry. apply localDay_unfold.
Qed.

Lemma todayOf_idempotent_witness :
  offsets_within msPerDay centralEurope2025
  /\ resolves_forward centralEurope2025
  /\ fullYear (getFullYear centralEurope2025 (utcInstant 2025 3 30 1))
  /\ todayOf centralEurope2025 (todayOf centralEurope2025 (utcInstant 2025 3 30 1))
     = todayOf centralEurope2025 (utcInstant 2025 3 30 1)
  /\ localCivil centralEurope2025 (todayOf centralEurope2025 (utcInstant 2025 3 30 1))
     = localCivil centralEurope2025 (utcInstant 2025 3 30 1).
Proof.
  assert (Hf : fullYear (getFullYear centralEurope2025 (utcInstant 2025 3 30 1)))
    by (apply fullYear_2025; vm_compute; reflexivity).
  pose proof (todayOf_idempotent centralEurope2025 (utcInstant 2025 3 30 1)
                centralEurope2025_within_day centralEurope2025_forward) as [H1 H2].
  split; [exact centralEurope2025_within_day|].
  split; [exact centralEurope2025_forward|].
  split; [exact Hf|]. split; [exact H1 | exact (H2 Hf)].
Defined.

(** ** More on the export handlers *)

Ltac name_messages :=
  cbv [copiedMsg copyFailedMsg savedMsg saveFailedMsg] in *.

(* closes a goal with a hypothesis [In e tr] where [e] is not in [tr] *)
Ltac no_such_event H :=
  cbn [In] in H; name_messages;
  repeat (destruct H as [H|H]; [discriminate H|]); destruct H.

(** The three ways [copyToClipboard] can end. *)
Lemma copy_trace_shape env :
  trace (copyToClipboard env) = []
  \/ trace (copyToClipboard env) = [SetToast (Some copyFailedMsg); SetTimeout 2000]
  \/ exists c b,
       captured env c /\ toBlob env c = Returns (Some b)
       /\ clipboard_write env b = Returns tt
       /\ trace (copyToClipboard env)
          = [ClipboardWritten b; SetToast (Some copiedMsg); SetTimeout 2000].
Proof.
  pose proof (copy_trace_cases env) as T. cbv zeta in T. unfold captured.
  destruct (cardRef_current env) as [k|]; [|auto].
  destruct (html2canvas env k) as [c|] eqn:Hc; [|auto].
  destruct (toBlob env c) as [[b|]|] eqn:Hb; [|auto|auto].
  destruct (clipboard_write env b) as [[]|] eqn:Hw; [|auto].
  right. right. exists c, b. repeat split; auto. exists k. auto.
Qed.

(** The four ways [downloadImage] can end. *)
Lemma download_trace_shape env n :
  trace (downloadImage env n) = []
  \/ trace (downloadImage env n) = [SetToast (Some saveFailedMsg); SetTimeout 2000]
  \/ exists c url,
       captured env c /\ toDataURL env c = Returns url
       /\ appendChild env = Returns tt /\ click env = Returns tt
       /\ ((removeChild env = Returns tt
            /\ trace (downloadImage env n)
               = [DownloadStarted url (downloadName n);
                  SetToast (Some savedMsg); SetTimeout 2000])
           \/ (removeChild env = Throws
               /\ trace (downloadImage env n)
                  = [DownloadStarted url (downloadName n);
                     SetToast (Some saveFailedMsg); SetTimeout 2000])).
Proof.
  pose proof (download_trace_cases env n) as T. cbv zeta in T. unfold captured.
  destruct (cardRef_current env) as [k|]; [|auto].
  destruct (html2canvas env k) as [c|] eqn:Hc; [|auto].
  destruct (toDataURL env c) as [url|] eqn:Hu; [|auto].
  destruct (appendChild env) as [[]|]; [|auto].
  destruct (click env) as [[]|]; [|auto].
  right. right. exists c, url.
  split; [exists k; auto|]. split; [exact Hu|]. split; [reflexivity|].
  split; [reflexivity|].
  destruct (removeChild env) as [[]|]; auto.
Qed.

Lemma copy_never_downloads env : ~ starts_download (trace (copyToClipboard env)).
Proof.
  unfold starts_download.
  destruct (copy_trace_shape env) as [E|[E|(c & b & _ & _ & _ & E)]];
    rewrite E; intros (h & m & H); no_such_event H.
Qed.

Lemma download_never_copies env n : ~ writes_clipboard (trace (downloadImage env n)).
Proof.
  unfold writes_clipboard.
  destruct (download_trace_shape env n)
    as [E|[E|(c & url & _ & _ & _ & _ & [[_ E]|[_ E]])]];
    rewrite E; intros (b & H); no_such_event H.
Qed.

(** X9: [copyToClipboard] writes to the clipboard only the blob that
    [toBlob] made of the captured card, and only if the write succeeded; it
    shows the success toast exactly when it wrote, never both toasts, at
    most one toast, and never starts a download. *)
Theorem copyToClipboard_writes_the_captured_card env :
  (forall b, In (ClipboardWritten b) (trace (copyToClipboard env)) ->
             exists c, captured env c /\ toBlob env c = Returns (Some b)
                       /\ clipboard_write env b = Returns tt)
  /\ (shows copiedMsg (trace (copyToClipboard env))
      <-> writes_clipboard (trace (copyToClipboard env)))
  /\ ~ (shows copiedMsg (trace (copyToClipboard env))
        /\ shows copyFailedMsg (trace (copyToClipboard env)))
  /\ ~ starts_download (trace (copyToClipboard env))
  /\ (toastCount (trace (copyToClipboard env)) <= 1)%nat.
Proof.
  unfold shows, writes_clipboard, starts_download.
  destruct (copy_trace_shape env) as [E|[E|(c & b & Hc & Hb & Hw & E)]];
    rewrite E; clear E.
  - split; [intros b H; destruct H|].
    split; [split; [intros [H _]|intros (b & H)]; destruct H|].
    split; [intros [[H _] _]; destruct H|].
    split; [intros (h & m & H); destruct H|]. cbn. lia.
  - split; [intros b H; no_such_event H|].
    split; [split; [intros [H _]|intros (b & H)]; no_such_event H|].
    split; [intros [[H _] _]; no_such_event H|].
    split; [intros (h & m & H); no_such_event H|]. cbn. lia.
  - split.
    { intros b' H. cbn [In] in H.
      destruct H as [H|[H|[H|[]]]]; try discriminate H.
      injection H as <-. exists c. auto. }
    split.
    { split; [intros _; exists b; cbn [In]; auto|].
      intros _. cbn [In]. auto. }
    split; [intros [_ [H _]]; no_such_event H|].
    split; [intros (h & m & H); no_such_event H|]. cbn. lia.
Qed.

(** X10: a download started by [downloadImage] is of the data URL of the
    captured card, under the name built from the day count; the success
    toast implies a started download; a started download is followed by the
    failure toast exactly when [removeChild] throws after the click; the
    handler never writes to the clipboard and shows at most one toast. *)
Theorem downloadImage_downloads_the_captured_card env n :
  (forall href name,
      In (DownloadStarted href name) (trace (downloadImage env n)) ->
      name = downloadName n
      /\ exists c, captured env c /\ toDataURL env c = Returns href
                   /\ click env = Returns tt)
  /\ (shows savedMsg (trace (downloadImage env n)) ->
      starts_download (trace (downloadImage env n)))
  /\ (starts_download (trace (downloadImage env n))
      /\ shows saveFailedMsg (trace (downloadImage env n))
      <-> exists c url,
            captured env c /\ toDataURL env c = Returns url
            /\ appendChild env = Returns tt /\ click env = Returns tt
            /\ removeChild env = Throws)
  /\ ~ writes_clipboard (trace (downloadImage env n))
  /\ (toastCount (trace (downloadImage env n)) <= 1)%nat.
Proof.
  unfold shows, writes_clipboard, starts_download.
  destruct (download_trace_shape env n)
    as [E|[E|(c & url & Hc & Hu & Ha & Hk & [[Hr E]|[Hr E]])]].
  - rewrite E.
    split; [intros h m H; destruct H|].
    split; [intros [H _]; destruct H|].
    split.
    { split; [intros [(h & m & H) _]; destruct H|].
      intros (c & url & (k & Hk & Hh) & Hu & Ha & Hc & Hr).
      pose proof (download_trace_cases env n) as T. cbv zeta in T.
      rewrite Hk, Hh, Hu, Ha, Hc, Hr in T. rewrite E in T. discriminate T. }
    split; [intros (b & H); destruct H|]. cbn. lia.
  - rewrite E.
    split; [intros h m H; no_such_event H|].
    split; [intros [H _]; no_such_event H|].
    split.
    { split; [intros [(h & m & H) _]; no_such_event H|].
      intros (c & url & (k & Hk & Hh) & Hu & Ha & Hc & Hr).
      pose proof (download_trace_cases env n) as T. cbv zeta in T.
      rewrite Hk, Hh, Hu, Ha, Hc, Hr in T. rewrite E in T. discriminate T. }
    split; [intros (b & H); no_such_event H|]. cbn. lia.
  - rewrite E.
    split.
    { intros h m H. cbn [In] in H.
      destruct H as [H|[H|[H|[]]]]; try discriminate H.
      injection H as <- <-. split; [reflexivity|]. exists c. auto. }
    split; [intros _; exists url, (downloadName n); cbn [In]; auto|].
    split.
    { split; [intros [_ [H _]]; no_such_event H|].
      intros (c' & url' & _ & _ & _ & _ & Hr'). rewrite Hr in Hr'. discriminate Hr'. }
    split; [intros (b & H); no_such_event H|]. cbn. lia.
  - rewrite E.
    split.
    { intros h m H. cbn [In] in H.
      destruct H as [H|[H|[H|[]]]]; try discriminate H.
      injection H as <- <-. split; [reflexivity|]. exists c. auto. }
    split; [intros [H _]; no_such_event H|].
    split.
    { split; [intros _; exists c, url; auto|].
      intros _. split; [exists url, (downloadName n); cbn [In]; auto|].
      cbn [In]. auto. }
    split; [intros (b & H); no_such_event H|]. cbn. lia.
Qed.

Lemma copyToClipboard_writes_the_captured_card_witness :
  In (ClipboardWritten (pngOf (canvasOf theCard))) (trace (copyToClipboard working))
  /\ exists c, captured working c
               /\ toBlob working c = Returns (Some (pngOf (canvasOf theCard)))
               /\ clipboard_write working (pngOf (canvasOf theCard)) = Returns tt.
Proof.
  assert (H : In (ClipboardWritten (pngOf (canvasOf theCard)))
                (trace (copyToClipboard working)))
    by (left; reflexivity).
  split; [exact H|].
  exact (proj1 (copyToClipboard_writes_the_captured_card working) _ H).
Defined.

Lemma downloadImage_downloads_the_captured_card_witness :
  In (DownloadStarted "data:image/png;base64,AAAA" (downloadName 28))
    (trace (downloadImage working 28))
  /\ downloadName 28 = downloadName 28
  /\ exists c, captured working c
               /\ toDataURL working c = Returns "data:image/png;base64,AAAA"%string
               /\ click working = Returns tt.
Proof.
  assert (H : In (DownloadStarted "data:image/png;base64,AAAA" (downloadName 28))
                (trace (downloadImage working 28)))
    by (left; reflexivity).
  split; [exact H|].
  exact (proj1 (downloadImage_downloads_the_captured_card working 28) _ _ H).
Defined.

(** X11: [handleClick] never throws and runs one export only: no clipboard
    write on a mobile client, no download on any other, never both; the
    hint names saving exactly when the client is mobile. *)
Theorem handleClick_runs_one_export ua env n :
  escapes (handleClick ua env n) = false
  /\ (isMobile ua = true ->
      ~ writes_clipboard (trace (handleClick ua env n)))
  /\ (isMobile ua = false ->
      ~ starts_download (trace (handleClick ua env n)))
  /\ ~ (writes_clipboard (trace (handleClick ua env n))
        /\ starts_download (trace (handleClick ua env n)))
  /\ (hintText ua = "点击保存图片"%string <-> isMobile ua = true).
Proof.
  pose proof (copy_never_downloads env) as Hc.
  pose proof (download_never_copies env n) as Hd.
  unfold handleClick, hintText. destruct (isMobile ua).
  - split; [apply downloadImage_returns|].
    split; [intros _; exact Hd|]. split; [discriminate|].
    split; [intros [H _]; exact (Hd H)|]. split; reflexivity.
  - split; [apply copyToClipboard_returns|].
    split; [discriminate|]. split; [intros _; exact Hc|].
    split; [intros [_ H]; exact (Hc H)|]. split; discriminate.
Qed.

Lemma handleClick_runs_one_export_witness :
  isMobile "Mozilla/5.0 (iPhone; CPU iPhone OS 17_0 like Mac OS X)" = true
  /\ ~ writes_clipboard
         (trace (handleClick "Mozilla/5.0 (iPhone; CPU iPhone OS 17_0 like Mac OS X)"
                   working 28))
  /\ isMobile "Mozilla/5.0 (Macintosh; Intel Mac OS X 10_15_7)" = false
  /\ ~ starts_download
         (trace (handleClick "Mozilla/5.0 (Macintosh; Intel Mac OS X 10_15_7)"
                   working 28)).
Proof.
  assert (H1 : isMobile "Mozilla/5.0 (iPhone; CPU iPhone OS 17_0 like Mac OS X)" = true)
    by reflexivity.
  assert (H2 : isMobile "Mozilla/5.0 (Macintosh; Intel Mac OS X 10_15_7)" = false)
    by reflexivity.
  split; [exact H1|].
  split; [exact (proj1 (proj2 (handleClick_runs_one_export _ working 28)) H1)|].
  split; [exact H2|].
  exact (proj1 (proj2 (proj2 (handleClick_runs_one_export _ working 28))) H2).
Defined.

(** ** The toast and its timers *)

(** A handler leaves the toast alone, or sets one toast and one timer. *)
Lemma copy_toast_effect env :
  (toastCount (trace (copyToClipboard env)) = 0%nat
   /\ forall s, applyTrace s (trace (copyToClipboard env)) = s)
  \/ exists msg,
       toastCount (trace (copyToClipboard env)) = 1%nat
       /\ forall s, applyTrace s (trace (copyToClipboard env))
                    = mkToastState (Some msg) (S (hideTimers s)).
Proof.
  destruct (copy_trace_shape env) as [E|[E|(c & b & _ & _ & _ & E)]]; rewrite E.
  - left. split; [|intros [t k]]; reflexivity.
  - right. exists copyFailedMsg. split; [|intros [t k]]; reflexivity.
  - right. exists copiedMsg. split; [|intros [t k]]; reflexivity.
Qed.

Lemma download_toast_effect env n :
  (toastCount (trace (downloadImage env n)) = 0%nat
   /\ forall s, applyTrace s (trace (downloadImage env n)) = s)
  \/ exists msg,
       toastCount (trace (downloadImage env n)) = 1%nat
       /\ forall s, applyTrace s (trace (downloadImage env n))
                    = mkToastState (Some msg) (S (hideTimers s)).
Proof.
  destruct (download_trace_shape env n)
    as [E|[E|(c & url & _ & _ & _ & _ & [[_ E]|[_ E]])]]; rewrite E.
  - left. split; [|intros [t k]]; reflexivity.
  - right. exists saveFailedMsg. split; [|intros [t k]]; reflexivity.
  - right. exists savedMsg. split; [|intros [t k]]; reflexivity.
  - right. exists saveFailedMsg. split; [|intros [t k]]; reflexivity.
Qed.

Lemma action_toast_effect a :
  (toastCount (actionTrace a) = 0%nat
   /\ forall s, applyTrace s (actionTrace a) = s)
  \/ exists msg,
       toastCount (actionTrace a) = 1%nat
       /\ forall s, applyTrace s (actionTrace a)
                    = mkToastState (Some msg) (S (hideTimers s)).
Proof.
  destruct a as [env|env n|ua env n|]; cbn [actionTrace].
  - apply copy_toast_effect.
  - apply download_toast_effect.
  - unfold handleClick.
    destruct (isMobile ua); [apply download_toast_effect | apply copy_toast_effect].
  - left. split; reflexivity.
Qed.

Lemma uiStep_handler s a :
  a <> TimerFires -> uiStep s a = Some (applyTrace s (actionTrace a)).
Proof. destruct a; intros H; [reflexivity .. | destruct H; reflexivity]. Qed.

Lemma uiStep_keeps_timer s a s' :
  (toast s <> None -> (0 < hideTimers s)%nat) ->
  uiStep s a = Some s' ->
  toast s' <> None -> (0 < hideTimers s')%nat.
Proof.
  intros Hinv Hstep.
  destruct (action_toast_effect a) as [[_ Hsame]|(msg & _ & Hset)].
  - destruct a; cbn [uiStep] in Hstep;
      try (injection Hstep as <-; cbn [actionTrace] in Hsame; rewrite Hsame; exact Hinv).
    destruct (hideTimers s); [discriminate Hstep|].
    injection Hstep as <-. cbn [toast]. intros H. destruct H. reflexivity.
  - destruct a; cbn [uiStep] in Hstep;
      try (injection Hstep as <-; cbn [actionTrace] in Hset; rewrite Hset;
           cbn [hideTimers]; lia).
    destruct (hideTimers s); [discriminate Hstep|].
    injection Hstep as <-. cbn [toast]. intros H. destruct H. reflexivity.
Qed.

Lemma uiRun_keeps_timer actions : forall s s',
  (toast s <> None -> (0 < hideTimers s)%nat) ->
  uiRun s actions = Some s' ->
  toast s' <> None -> (0 < hideTimers s')%nat.
Proof.
  induction actions as [|a rest IH]; intros s s' Hinv Hrun.
  - injection Hrun as <-. exact Hinv.
  - cbn [uiRun] in Hrun. destruct (uiStep s a) as [s1|] eqn:Hstep; [|discriminate].
    apply (IH s1 s'); [|exact Hrun].
    apply (uiStep_keeps_timer s a s1 Hinv Hstep).
Qed.

(** X12: whatever handlers run and timers fire from the initial state, a
    visible toast always has a timer pending, so once every timer has fired
    no toast is left on the page. *)
Theorem toast_shown_has_timer_pending actions s :
  uiRun initialToast actions = Some s ->
  (toast s <> None -> (0 < hideTimers s)%nat)
  /\ (hideTimers s = 0%nat -> toast s = None).
Proof.
  intros Hrun.
  assert (Hinv : toast s <> None -> (0 < hideTimers s)%nat).
  { apply (uiRun_keeps_timer actions initialToast s); [|exact Hrun].
    intros H. destruct H. reflexivity. }
  split; [exact Hinv|].
  intros H0. destruct (toast s) as [m|] eqn:Ht; [|reflexivity].
  assert (0 < hideTimers s)%nat by (apply Hinv; discriminate). lia.
Qed.

Lemma toast_shown_has_timer_pending_witness :
  uiRun initialToast [RunCopy clipboardDenied; RunDownload working 28]
  = Some (mkToastState (Some savedMsg) 2)
  /\ toast (mkToastState (Some savedMsg) 2) <> None
  /\ (0 < hideTimers (mkToastState (Some savedMsg) 2))%nat
  /\ uiRun initialToast
       [RunCopy clipboardDenied; RunDownload working 28; TimerFires; TimerFires]
     = Some (mkToastState None 0)
  /\ hideTimers (mkToastState None 0) = 0%nat
  /\ toast (mkToastState None 0) = None.
Proof.
  assert (Hshown : uiRun initialToast
                     [RunCopy clipboardDenied; RunDownload working 28]
                   = Some (mkToastState (Some savedMsg) 2)) by reflexivity.
  assert (Hvisible : toast (mkToastState (Some savedMsg) 2) <> None)
    by discriminate.
  assert (Hfired : uiRun initialToast
                     [RunCopy clipboardDenied; RunDownload working 28;
                      TimerFires; TimerFires]
                   = Some (mkToastState None 0)) by reflexivity.
  assert (Hnone : hideTimers (mkToastState None 0) = 0%nat) by reflexivity.
  split; [exact Hshown|]. split; [exact Hvisible|].
  split; [exact (proj1 (toast_shown_has_timer_pending _ _ Hshown) Hvisible)|].
  split; [exact Hfired|]. split; [exact Hnone|].
  exact (proj2 (toast_shown_has_timer_pending _ _ Hfired) Hnone).
Defined.

(** X13: one toast is cleared by its own timer; when a second toast is
    shown before that, the first timer clears the second toast while the
    second timer is still pending. *)
Theorem second_toast_cut_short a1 a2 :
  toastCount (actionTrace a1) = 1%nat ->
  toastCount (actionTrace a2) = 1%nat ->
  uiRun initialToast [a1; TimerFires] = Some initialToast
  /\ (exists msg, uiRun initialToast [a1; a2] = Some (mkToastState (Some msg) 2))
  /\ uiRun initialToast [a1; a2; TimerFires] = Some (mkToastState None 1).
Proof.
  intros H1 H2.
  assert (N1 : a1 <> TimerFires) by (intros ->; discriminate H1).
  assert (N2 : a2 <> TimerFires) by (intros ->; discriminate H2).
  destruct (action_toast_effect a1) as [[Z1 _]|(m1 & _ & E1)];
    [rewrite Z1 in H1; discriminate H1|].
  destruct (action_toast_effect a2) as [[Z2 _]|(m2 & _ & E2)];
    [rewrite Z2 in H2; discriminate H2|].
  cbn [uiRun]. rewrite (uiStep_handler _ a1 N1), E1.
  rewrite (uiStep_handler _ a2 N2), E2. cbn [hideTimers initialToast uiStep].
  split; [reflexivity|]. split; [exists m2|]; reflexivity.
Qed.

Lemma second_toast_cut_short_witness :
  toastCount (actionTrace (RunCopy working)) = 1%nat
  /\ toastCount (actionTrace (RunDownload working 28)) = 1%nat
  /\ uiRun initialToast [RunCopy working; RunDownload working 28; TimerFires]
     = Some (mkToastState None 1).
Proof.
  assert (H1 : toastCount (actionTrace (RunCopy working)) = 1%nat) by reflexivity.
  assert (H2 : toastCount (actionTrace (RunDownload working 28)) = 1%nat)
    by reflexivity.
  split; [exact H1|]. split; [exact H2|].
  exact (proj2 (proj2 (second_toast_cut_short _ _ H1 H2))).
Defined.

(** ** Strings *)

Lemma append_assoc (a b c : string) : ((a ++ b) ++ c = a ++ b ++ c)%string.
Proof. induction a as [|x a IH]; cbn [append]; [|rewrite IH]; reflexivity. Qed.

Lemma length_append (a b : string) :
  String.length (a ++ b) = (String.length a + String.length b)%nat.
Proof. induction a as [|x a IH]; cbn [append String.length]; [|rewrite IH]; reflexivity. Qed.

Lemma append_inj_l (p a b : string) : (p ++ a = p ++ b)%string -> a = b.
Proof.
  induction p as [|x p IH]; cbn [append]; intros H; [exact H|].
  injection H as H. apply IH. exact H.
Qed.

Lemma append_inj_r (s : string) : forall a b : string,
  (a ++ s = b ++ s)%string -> a = b.
Proof.
  induction a as [|x a IH]; intros [|y b] H; cbn [append] in H.
  - reflexivity.
  - apply (f_equal String.length) in H. cbn [String.length] in H.
    rewrite length_append in H. lia.
  - apply (f_equal String.length) in H. cbn [String.length] in H.
    rewrite length_append in H. lia.
  - injection H as -> H. f_equal. apply IH. exact H.
Qed.

(** ** The day count in the title and in the file name *)

Lemma string_of_Z_parses z :
  option_map Z.of_int (NilZero.int_of_string (string_of_Z z)) = Some z.
Proof.
  unfold string_of_Z. rewrite NilZero.isi.
  - cbn [option_map]. rewrite DecimalZ.of_to. reflexivity.
  - destruct z as [|p|p]; cbn [Z.to_int]; try discriminate.
    intros H. injection H as H. exact (Unsigned.to_uint_nonnil p H).
  - destruct z as [|p|p]; cbn [Z.to_int]; try discriminate.
    intros H. injection H as H. exact (Unsigned.to_uint_nonnil p H).
Qed.

Lemma string_of_Z_inj n m : string_of_Z n = string_of_Z m -> n = m.
Proof.
  intros H. pose proof (string_of_Z_parses n) as Hn.
  rewrite H, string_of_Z_parses in Hn. injection Hn as ->. reflexivity.
Qed.

(** X14: the file name and the page title determine the day count, and
    the decimal text of the count parses back to it. *)
Theorem day_count_readable_from_texts n m :
  (downloadName n = downloadName m -> n = m)
  /\ (documentTitle n = documentTitle m -> n = m)
  /\ option_map Z.of_int (NilZero.int_of_string (string_of_Z n)) = Some n.
Proof.
  split; [|split; [|apply string_of_Z_parses]].
  - unfold downloadName. intros H. apply append_inj_l, append_inj_r in H.
    apply string_of_Z_inj. exact H.
  - unfold documentTitle. intros H. apply append_inj_l, append_inj_r in H.
    apply string_of_Z_inj. exact H.
Qed.

Lemma day_count_readable_from_texts_witness :
  downloadName 28 = downloadName (27 + 1) /\ 28 = 27 + 1.
Proof.
  assert (H : downloadName 28 = downloadName (27 + 1)) by reflexivity.
  split; [exact H|].
  exact (proj1 (day_count_readable_from_texts 28 (27 + 1)) H).
Defined.

(** ** More on [isMobile] *)

Lemma canonicalize_idem c :
  canonicalize true (canonicalize true c) = canonicalize true c.
Proof.
  destruct c as [[] [] [] [] [] [] [] []]; vm_compute; reflexivity.
Qed.

Lemma foldCase_idem s : foldCase (foldCase s) = foldCase s.
Proof.
  induction s as [|c s IH]; cbn [foldCase]; [reflexivity|].
  rewrite canonicalize_idem, IH. reflexivity.
Qed.

Lemma foldCase_append a b : foldCase (a ++ b) = (foldCase a ++ foldCase b)%string.
Proof. induction a as [|x a IH]; cbn [append foldCase]; [|rewrite IH]; reflexivity. Qed.

Lemma foldCase_length s : String.length (foldCase s) = String.length s.
Proof. induction s as [|c s IH]; cbn [foldCase String.length]; [|rewrite IH]; reflexivity. Qed.

Lemma matchLiteral_foldCase p : forall s,
  matchLiteral true p (foldCase s) = matchLiteral true p s.
Proof.
  induction p as [|a p IH]; intros [|b s]; cbn [foldCase matchLiteral]; try reflexivity.
  rewrite canonicalize_idem, IH. reflexivity.
Qed.

Lemma existsb_same {A : Type} (f g : A -> bool) l :
  (forall x, f x = g x) -> existsb f l = existsb g l.
Proof.
  intros H. induction l as [|x l IH]; cbn [existsb]; [|rewrite H, IH]; reflexivity.
Qed.

Lemma test_foldCase re s :
  ignoreCase re = true -> test re (foldCase s) = test re s.
Proof.
  intros Hic. induction s as [|c s IH].
  - reflexivity.
  - cbn [foldCase test]. rewrite IH, Hic. f_equal.
    apply existsb_same. intros p.
    exact (matchLiteral_foldCase p (String c s)).
Qed.

(** X15: [isMobile] does not change when ASCII letters of the client
    string change case. *)
Theorem isMobile_ignores_case ua ua' :
  isMobile (foldCase ua) = isMobile ua
  /\ (foldCase ua = foldCase ua' -> isMobile ua = isMobile ua').
Proof.
  assert (H : forall s, isMobile (foldCase s) = isMobile s)
    by (intros s; apply test_foldCase; reflexivity).
  split; [apply H|].
  intros E. rewrite <- (H ua), <- (H ua'), E. reflexivity.
Qed.

Lemma isMobile_ignores_case_witness :
  foldCase "mozilla/5.0 (iphone)" = foldCase "Mozilla/5.0 (iPhone)"
  /\ isMobile "mozilla/5.0 (iphone)" = isMobile "Mozilla/5.0 (iPhone)".
Proof.
  assert (E : foldCase "mozilla/5.0 (iphone)" = foldCase "Mozilla/5.0 (iPhone)")
    by reflexivity.
  split; [exact E|].
  exact (proj2 (isMobile_ignores_case _ _) E).
Defined.

(** X16: a client string recognised as mobile stays so when text is put
    before and after it. *)
Theorem isMobile_kept_by_extension pre ua post :
  isMobile ua = true -> isMobile (pre ++ ua ++ post) = true.
Proof.
  intros H. unfold isMobile in *.
  apply (test_sound mobilePattern eq_refl) in H
    as (p & Hin & p1 & mid & p2 & -> & Hf).
  replace (pre ++ (p1 ++ mid ++ p2) ++ post)%string
    with ((pre ++ p1) ++ mid ++ (p2 ++ post))%string
    by (rewrite !append_assoc; reflexivity).
  apply (test_complete mobilePattern p mid (p2 ++ post) eq_refl Hin Hf).
Qed.

Lemma isMobile_kept_by_extension_witness :
  isMobile "iPad" = true
  /\ isMobile ("Mozilla/5.0 (" ++ "iPad" ++ "; CPU OS 17_0 like Mac OS X)") = true.
Proof.
  assert (H : isMobile "iPad" = true) by reflexivity.
  split; [exact H|].
  exact (isMobile_kept_by_extension "Mozilla/5.0 (" "iPad"
           "; CPU OS 17_0 like Mac OS X)" H).
Defined.

Lemma occursFolded_length p s :
  occursFolded p s -> (String.length p <= String.length s)%nat.
Proof.
  intros (pre & mid & post & -> & Hf).
  apply (f_equal String.length) in Hf. rewrite !foldCase_length in Hf.
  rewrite !length_append. lia.
Qed.

(** X17: a client string of fewer than four characters, the empty one
    included, is never mobile. *)
Theorem isMobile_needs_four_characters ua :
  (String.length ua < 4)%nat -> isMobile ua = false.
Proof.
  intros Hlen. destruct (isMobile ua) eqn:E; [|reflexivity].
  unfold isMobile in E.
  apply (test_sound mobilePattern eq_refl) in E as (p & Hin & Hocc).
  apply occursFolded_length in Hocc.
  cbn [alternatives mobilePattern In] in Hin.
  repeat (destruct Hin as [<-|Hin]; [cbn [String.length] in Hocc; lia|]).
  destruct Hin.
Qed.

Lemma isMobile_needs_four_characters_witness :
  (String.length "" < 4)%nat /\ isMobile "" = false.
Proof.
  assert (H : (String.length "" < 4)%nat) by (cbn; lia).
  split; [exact H|].
  exact (isMobile_needs_four_characters "" H).
Defined.
